(** * bat_tracking_pipeline.py: a shallow embedding of [BatTrackingPipeline]

    The script drives third-party detection models.  Everything that
    lives outside the script (the baseballcv tools, the models, the
    logger, numpy, the clock) is collected in one interface,
    [Externals]; the script's own control flow (the retry loop, the
    frame loop, the selection of the best detection, the try/except
    blocks) is translated statement by statement into a state-and-
    exception monad. *)

From Stdlib Require Import ZArith String List Bool Lia.
From stdpp Require Import base list strings pretty.

Local Open Scope string_scope.
Local Open Scope Z_scope.

(** ** Python exceptions *)

(** The exception classes the script can meet.  The first four derive
    from [BaseException] only, so [except Exception] lets them pass. *)
Inductive exn_class :=
  | BaseException
  | KeyboardInterrupt
  | SystemExit
  | GeneratorExit
  | Exception
  | NameError
  | AttributeError
  | ValueError
  | TypeError
  | KeyError
  | LibraryError (name : string).

(** [isinstance(e, Exception)] *)
Definition is_Exception (c : exn_class) : bool :=
  match c with
  | BaseException | KeyboardInterrupt | SystemExit | GeneratorExit => false
  | _ => true
  end.

(** An exception object: its class and the text [str(e)] gives. *)
Record exn := Exn { exn_class_of : exn_class; str : string }.

Inductive outcome (A : Type) :=
  | Return (a : A)
  | Raise (e : exn).
Arguments Return {A} a.
Arguments Raise {A} e.

Definition returned {A} (r : outcome A) : bool :=
  match r with Return _ => true | Raise _ => false end.

(** ** Values held by the pipeline object *)

(** What an attribute of the pipeline object can be bound to: [None],
    a reference to an object of a library (its identity), or a string. *)
Inductive value :=
  | VNone
  | VObj (id : N)
  | VStr (s : string).

(** The classes the module imports and instantiates. *)
Inductive library_class := LoadTools | DataTools | Florence2.

(** The instance dictionary of a [BatTrackingPipeline] object: one
    optional binding for each data attribute the source reads or
    writes through [self].  [None] here means the attribute is absent.
    The first four are assigned by [__init__]; [logger] is read by
    [process_sequence] and assigned nowhere in the source. *)
Record pipeline := Pipeline {
  load_tools : option value;
  data_tools : option value;
  bat_model : option value;
  context_model : option value;
  logger : option value
}.

(** [object.__new__(BatTrackingPipeline)]: no attribute yet. *)
Definition new_object : pipeline := Pipeline None None None None None.

(** The names the class body binds (lines 12-170). *)
Definition class_namespace : list string :=
  [ "__init__"; "load_model_with_retry"; "process_sequence";
    "process_frame_results"; "calculate_bat_angle"; "analyze_sequence";
    "extract_clean_trajectories"; "calculate_swing_metrics" ].

(** The names the module binds at top level (lines 1-5, 7, 173). *)
Definition module_globals : list string :=
  [ "LoadTools"; "DataTools"; "Florence2"; "cv2"; "np"; "datetime";
    "BatTrackingPipeline"; "analyze_baseball_swing" ].

(** ** Data passed between the pipeline steps *)

Section Data.
Context {float : Type}.

(** One element of [bat_results.boxes]: [conf[0]] and [xyxy[0].tolist()]. *)
Record box := Box { conf0 : float; xyxy0 : list float }.

(** What [bat_model.predict] returns, as far as the script reads it. *)
Record bat_results := BatResults { timestamp : value; boxes : list box }.

(** The dict appended to ['bat_detections']. *)
Record detection := Detection {
  position : list float;
  confidence : float;
  angle : float
}.

(** The dict [process_frame_results] builds. *)
Record frame_data := FrameData {
  fd_timestamp : value;
  bat_detections : list detection;
  bat_angle : option float
}.

(** The dict appended to [trajectories]. *)
Record trajectory_point := TrajectoryPoint {
  tp_position : list float;
  tp_angle : float
}.

(** What [bat_trajectory] can be bound to: [None], or a list whose
    entries are [None] or a trajectory dict. *)
Definition trajectory : Type := option (list (option trajectory_point)).

(** The dict [calculate_swing_metrics] returns. *)
Record swing_metrics_dict := SwingMetrics {
  max_bat_speed : Z;
  swing_plane_angle : Z;
  contact_point : option (list float);
  swing_duration : Z
}.
End Data.
Arguments box : clear implicits.
Arguments bat_results : clear implicits.
Arguments detection : clear implicits.
Arguments frame_data : clear implicits.
Arguments trajectory_point : clear implicits.
Arguments trajectory : clear implicits.
Arguments swing_metrics_dict : clear implicits.

(** ** The world outside the script *)

Class Externals := {
  (** the state of everything outside the script *)
  World : Type;
  (** Python floats, with the operations the script applies to them *)
  float : Type;
  fgt : float -> float -> bool;          (* a > b *)
  fsub : float -> float -> float;         (* a - b *)
  f0_30 : float;                          (* the literal 0.30 *)
  np_arctan2 : float -> float -> float;
  np_degrees : float -> float;
  (** a video frame and the answer of the vision-language model *)
  frame : Type;
  context : Type;
  (** calls into the libraries; each may raise and may change the world *)
  lib_new : library_class -> World -> outcome value * World;
  lib_load_model : N -> string -> World -> outcome value * World;
  lib_generate_photo_dataset :
    N -> string -> Z -> string -> World -> outcome (list frame) * World;
  lib_predict :
    N -> frame -> float -> bool -> World -> outcome (bat_results float) * World;
  lib_inference : N -> frame -> string -> World -> outcome context * World;
  lib_info : N -> string -> World -> outcome unit * World;
  lib_now_isoformat : World -> outcome string * World
}.

Section Pipeline.
Context {E : Externals}.

(** Every call into a library is recorded with its receiver, its
    positional arguments and what it gave back. *)
Inductive event :=
  | ENew (c : library_class) (r : outcome value)
  | ELoadModel (o : N) (model_name : string) (r : outcome value)
  | EGenerate (o : N) (video_path : string) (r : outcome (list frame))
  | EPredict (o : N) (f : frame) (r : outcome (bat_results float))
  | EInference (o : N) (f : frame) (task : string) (r : outcome context)
  | EInfo (o : N) (msg : string) (r : outcome unit)
  | ENow (r : outcome string).

(** The dict [analyze_sequence] returns. *)
Record analysis_results := AnalysisResults {
  sequence_length : Z;
  bat_trajectory : trajectory float;
  swing_metrics : swing_metrics_dict float;
  game_situation : option context;
  analysis_timestamp : string
}.

(** ** Program state and the monad of statements *)

Record state := State {
  self : pipeline;            (* the attributes of the pipeline object *)
  world : World;              (* everything outside the script *)
  stdout : list string;       (* the lines printed so far *)
  calls : list event          (* the library calls made so far *)
}.

Definition M (A : Type) : Type := state -> outcome A * state.

Definition ret {A} (a : A) : M A := fun s => (Return a, s).

Definition bind {A B} (m : M A) (k : A -> M B) : M B :=
  fun s =>
    match m s with
    | (Return a, s') => k a s'
    | (Raise e, s') => (Raise e, s')
    end.

Definition raise {A} (e : exn) : M A := fun s => (Raise e, s).

(** [try: body  except Exception as e: handler e].  What the body did
    to the state before it raised stays done. *)
Definition try_except {A} (body : M A) (handler : exn -> M A) : M A :=
  fun s =>
    match body s with
    | (Return a, s') => (Return a, s')
    | (Raise e, s') =>
        if is_Exception (exn_class_of e) then handler e s'
        else (Raise e, s')
    end.

(** A function without effects that may raise. *)
Definition lift {A} (r : outcome A) : M A := fun s => (r, s).

Notation "x <- m ;; k" := (bind m (fun x => k))
  (at level 100, m at next level, right associativity).
Notation "m ;; k" := (bind m (fun _ => k))
  (at level 100, right associativity).

(** ** Primitive statements *)

(** [print(line)] *)
Definition print (line : string) : M unit :=
  fun s => (Return tt, State (self s) (world s) (stdout s ++ [line]) (calls s)).

(** A call into a library: the world moves on and the call is logged. *)
Definition extern {A} (ev : outcome A -> event)
    (f : World -> outcome A * World) : M A :=
  fun s =>
    let '(r, w) := f (world s) in
    (r, State (self s) w (stdout s) (calls s ++ [ev r])).

Definition no_attribute (type_name attr : string) : exn :=
  Exn AttributeError
    ("'" ++ type_name ++ "' object has no attribute '" ++ attr ++ "'").

(** [self.name] for a data attribute. *)
Definition getattr (field : pipeline -> option value) (name : string)
    : M value :=
  fun s =>
    match field (self s) with
    | Some v => (Return v, s)
    | None => (Raise (no_attribute "BatTrackingPipeline" name), s)
    end.

(** [self.name = v] *)
Definition setattr (update : value -> pipeline -> pipeline) (v : value)
    : M unit :=
  fun s => (Return tt, State (update v (self s)) (world s) (stdout s) (calls s)).

Definition set_load_tools (v : value) (p : pipeline) : pipeline :=
  Pipeline (Some v) (data_tools p) (bat_model p) (context_model p) (logger p).
Definition set_data_tools (v : value) (p : pipeline) : pipeline :=
  Pipeline (load_tools p) (Some v) (bat_model p) (context_model p) (logger p).
Definition set_bat_model (v : value) (p : pipeline) : pipeline :=
  Pipeline (load_tools p) (data_tools p) (Some v) (context_model p) (logger p).
Definition set_context_model (v : value) (p : pipeline) : pipeline :=
  Pipeline (load_tools p) (data_tools p) (bat_model p) (Some v) (logger p).

(** [v.method]: only a library object has methods the script calls. *)
Definition receiver (v : value) (method : string) : M N :=
  match v with
  | VObj o => ret o
  | VNone => raise (no_attribute "NoneType" method)
  | VStr _ => raise (no_attribute "str" method)
  end.

(** [self.name(...)] for a name that neither the instance nor the
    class binds (see [class_namespace]): the attribute lookup raises
    before anything is called. *)
Definition undefined_method {A} (name : string) : M A :=
  raise (no_attribute "BatTrackingPipeline" name).

(** A global name that neither the module nor the builtins bind (see
    [module_globals]): evaluating it raises. *)
Definition unbound_name {A} (name : string) : M A :=
  raise (Exn NameError ("name '" ++ name ++ "' is not defined")).

(** [range(n)] *)
Definition range (n : Z) : list Z := Z.of_nat <$> seq 0 (Z.to_nat n).

(** [enumerate(l)], counting from [i]. *)
Fixpoint enumerate_from {A} (i : Z) (l : list A) : list (Z * A) :=
  match l with
  | [] => []
  | x :: l' => (i, x) :: enumerate_from (i + 1) l'
  end.
Definition enumerate {A} (l : list A) : list (Z * A) := enumerate_from 0 l.

(** [self.logger.info(msg)] *)
Definition logger_info (msg : string) : M unit :=
  lg <- getattr logger "logger" ;;
  o <- receiver lg "info" ;;
  extern (EInfo o msg) (lib_info o msg).

(** ** load_model_with_retry (lines 24-36) *)

(** [self.load_tools.load_model(model_name)] *)
Definition load_model_call (model_name : string) : M value :=
  lt <- getattr load_tools "load_tools" ;;
  o <- receiver lt "load_model" ;;
  extern (ELoadModel o model_name) (lib_load_model o model_name).

(** The body of the [try] (lines 30-31).  [YOLO] is bound nowhere. *)
Definition load_attempt (model_name : string) : M value :=
  model_path <- load_model_call model_name ;;
  unbound_name "YOLO".

(** The [for] loop over the attempts still to make.  A [Return] of
    the [try] body leaves the function; the handler either raises or
    falls through to the next iteration.  [time] is bound nowhere. *)
Fixpoint retry_loop (model_name : string) (max_attempts : Z)
    (attempts : list Z) : M value :=
  match attempts with
  | [] => ret VNone
  | attempt :: rest =>
      try_except (load_attempt model_name)
        (fun e =>
           if (attempt =? max_attempts - 1)%Z then
             raise (Exn Exception
                      ("Failed to load model after " ++ pretty max_attempts
                         ++ " attempts"))
           else
             print ("Attempt " ++ pretty (attempt + 1)
                      ++ " failed, retrying...") ;;
             (unbound_name "time" : M unit) ;;
             retry_loop model_name max_attempts rest)
  end.

Definition load_model_with_retry (model_name : string) (max_attempts : Z)
    : M value :=
  retry_loop model_name max_attempts (range max_attempts).

(** ** __init__ (lines 12-22) *)

Definition __init__ : M unit :=
  lt <- extern (ENew LoadTools) (lib_new LoadTools) ;;
  setattr set_load_tools lt ;;
  dt <- extern (ENew DataTools) (lib_new DataTools) ;;
  setattr set_data_tools dt ;;
  m <- load_model_with_retry "bat_tracking" 3 ;;
  setattr set_bat_model m ;;
  c <- extern (ENew Florence2) (lib_new Florence2) ;;
  setattr set_context_model c ;;
  undefined_method "setup_logging".

(** ** process_frame_results and calculate_bat_angle (lines 79-107) *)

(** [x1, y1, x2, y2 = bat_box] raises unless the list has four items. *)
Definition calculate_bat_angle (bat_box : list float) : outcome float :=
  match bat_box with
  | [x1; y1; x2; y2] =>
      let angle := np_arctan2 (fsub y2 y1) (fsub x2 x1) in
      Return (np_degrees angle)
  | _ =>
      Raise (Exn ValueError
               (if (length bat_box <? 4)%nat then
                  "not enough values to unpack (expected 4, got "
                    ++ pretty (length bat_box) ++ ")"
                else "too many values to unpack (expected 4)"))
  end.

(** The loop over [bat_results.boxes]; [found] is the list bound to
    ['bat_detections'] so far. *)
Fixpoint detections_loop (bs : list (box float))
    (found : list (detection float)) : outcome (list (detection float)) :=
  match bs with
  | [] => Return found
  | d :: rest =>
      if fgt (conf0 d) f0_30 then
        let bat_box := xyxy0 d in
        match calculate_bat_angle bat_box with
        | Return a =>
            detections_loop rest (found ++ [Detection bat_box (conf0 d) a])
        | Raise e => Raise e
        end
      else detections_loop rest found
  end.

Definition process_frame_results (results : bat_results float)
    : outcome (frame_data float) :=
  match detections_loop (boxes results) [] with
  | Return found => Return (FrameData (timestamp results) found None)
  | Raise e => Raise e
  end.

(** ** extract_clean_trajectories (lines 130-151) *)

(** [max(items, key=lambda x: x['confidence'])] on a non-empty list:
    the running maximum is replaced only by a strictly greater key. *)
Fixpoint max_confidence (best : detection float)
    (items : list (detection float)) : detection float :=
  match items with
  | [] => best
  | d :: rest =>
      if fgt (confidence d) (confidence best) then max_confidence d rest
      else max_confidence best rest
  end.

(** What one iteration appends to [trajectories]. *)
Definition trajectory_entry (fd : frame_data float)
    : option (trajectory_point float) :=
  match bat_detections fd with
  | [] => None
  | first :: others =>
      let best_detection := max_confidence first others in
      Some (TrajectoryPoint (position best_detection) (angle best_detection))
  end.

(** The [for] loop (lines 136-148). *)
Fixpoint trajectories_loop (sequence_data : list (frame_data float))
    (trajectories : list (option (trajectory_point float)))
    : list (option (trajectory_point float)) :=
  match sequence_data with
  | [] => trajectories
  | fd :: rest =>
      trajectories_loop rest (trajectories ++ [trajectory_entry fd])
  end.

(** The last line looks [interpolate_missing_trajectories] up on
    [self]; no such name is bound, so the list built is never used. *)
Definition extract_clean_trajectories
    (sequence_data : list (frame_data float)) : M (trajectory float) :=
  let trajectories := trajectories_loop sequence_data [] in
  undefined_method "interpolate_missing_trajectories".

(** ** calculate_swing_metrics (lines 153-170) *)

(** Truth value of [bat_trajectory]: [None] and [[]] are false. *)
Definition truthy (t : trajectory float) : bool :=
  match t with
  | None | Some [] => false
  | Some (_ :: _) => true
  end.

Definition calculate_swing_metrics (bat_trajectory : trajectory float)
    : swing_metrics_dict float :=
  let metrics := SwingMetrics 0 0 None 0 in
  if truthy bat_trajectory then
    (* pass *)
    metrics
  else metrics.

(** ** analyze_sequence (lines 109-128) *)

Definition analyze_sequence (sequence_data : list (frame_data float))
    (game_context : option context) : M analysis_results :=
  bat_trajectory <- extract_clean_trajectories sequence_data ;;
  let swing_metrics := calculate_swing_metrics bat_trajectory in
  now <- extern ENow lib_now_isoformat ;;
  ret (AnalysisResults (Z.of_nat (length sequence_data)) bat_trajectory
         swing_metrics game_context now).

(** ** process_sequence (lines 38-77) *)

(** The [if] statement of the loop body (lines 65-70): what
    [game_context] is bound to after it. *)
Definition first_frame_context (idx : Z) (f : frame)
    (game_context : option context) : M (option context) :=
  if idx =? 0 then
    logger_info "Analyzing game context" ;;
    cm <- getattr context_model "context_model" ;;
    c <- receiver cm "inference" ;;
    answer <- extern (EInference c f "<BATTING_CONTEXT>")
                (lib_inference c f "<BATTING_CONTEXT>") ;;
    ret (Some answer)
  else ret game_context.

(** The [for] loop (lines 56-74), with the two local containers. *)
Fixpoint frame_loop (frames : list (Z * frame))
    (sequence_data : list (frame_data float))
    (game_context : option context)
    : M (list (frame_data float) * option context) :=
  match frames with
  | [] => ret (sequence_data, game_context)
  | (idx, f) :: rest =>
      bm <- getattr bat_model "bat_model" ;;
      o <- receiver bm "predict" ;;
      bat_results <- extern (EPredict o f) (lib_predict o f f0_30 false) ;;
      game_context <- first_frame_context idx f game_context ;;
      frame_data <- lift (process_frame_results bat_results) ;;
      frame_loop rest (sequence_data ++ [frame_data]) game_context
  end.

Definition process_sequence (video_path : string) : M analysis_results :=
  logger_info "Extracting frames from video sequence" ;;
  dt <- getattr data_tools "data_tools" ;;
  o <- receiver dt "generate_photo_dataset" ;;
  frames <- extern (EGenerate o video_path)
              (lib_generate_photo_dataset o video_path 60
                 "swing_analysis_frames") ;;
  logger_info "Beginning frame analysis" ;;
  data <- frame_loop (enumerate frames) [] None ;;
  analyze_sequence (fst data) (snd data).

(** ** analyze_baseball_swing (lines 173-185) *)

(** The [try] statement (lines 179-185), run on the current object. *)
Definition analyze_try (video_path : string) : M (option analysis_results) :=
  try_except
    (results <- process_sequence video_path ;;
     print ("Successfully analyzed swing sequence of "
              ++ pretty (sequence_length results) ++ " frames") ;;
     ret (Some results))
    (fun e =>
       print ("Analysis failed: " ++ str e) ;;
       ret None).

(** [BatTrackingPipeline()]: a fresh object, then [__init__] on it. *)
Definition BatTrackingPipeline : M unit :=
  fun s => __init__ (State new_object (world s) (stdout s) (calls s)).

Definition analyze_baseball_swing (video_path : string)
    : M (option analysis_results) :=
  BatTrackingPipeline ;;
  analyze_try video_path.

End Pipeline.

(** ** The vocabulary of the statements *)

Section Vocabulary.
Context {E : Externals}.

(** How a call ends once its first attempt has failed in state [s1]:
    the final attempt raises the generic failure, any other attempt
    prints and then trips over the unbound name [time]. *)
Definition first_failure (max_attempts : Z) (s1 : state)
    : outcome value * state :=
  if (max_attempts =? 1)%Z then
    (Raise (Exn Exception
              ("Failed to load model after " ++ pretty max_attempts
                 ++ " attempts")), s1)
  else
    (Raise (Exn NameError "name 'time' is not defined"),
     State (self s1) (world s1)
       (stdout s1 ++ ["Attempt 1 failed, retrying..."]) (calls s1)).

(** A relation between the state before and the state after that a
    statement maintains however it ends. *)
Definition keeps (R : state -> state -> Prop) {A} (m : M A) : Prop :=
  forall s, R s (snd (m s)).

(** The attributes of the pipeline object are the same. *)
Definition same_self (s s' : state) : Prop := self s' = self s.

Definition is_inference (e : event) : bool :=
  match e with EInference _ _ _ _ => true | _ => false end.

Definition is_predict (e : event) : bool :=
  match e with EPredict _ _ _ => true | _ => false end.

(** Calls were added to the log, none of the given kind. *)
Definition none_of (kind : event -> bool) (s s' : state) : Prop :=
  exists new : list event,
    calls s' = (calls s ++ new)%list /\ List.filter kind new = [].

(** Since [s], the context model was asked at most once, about [f]. *)
Definition once (f : frame) (s s' : state) : Prop :=
  exists new : list event,
    calls s' = (calls s ++ new)%list /\
    (List.filter is_inference new = [] \/
     exists c r,
       List.filter is_inference new = [EInference c f "<BATTING_CONTEXT>" r]).

(** The object bound to [self.bat_model], if it is one. *)
Definition bat_model_of (s : state) : N :=
  match bat_model (self s) with
  | Some (VObj o) => o
  | _ => 0%N
  end.

(** Nothing was assigned to [self] and the bat model was not asked. *)
Definition calm (s s' : state) : Prop :=
  same_self s s' /\ none_of is_predict s s'.

(** Since [s], nothing was assigned to [self], and the bat model was
    asked about the first frames of [frames], one call per frame, in
    their order, [answers] being what the calls gave back. *)
Definition predicted (frames : list frame) (s s' : state) : Prop :=
  same_self s s' /\
  exists (new : list event) (answers : list (outcome (bat_results float))),
    calls s' = (calls s ++ new)%list /\
    List.filter is_predict new
      = zip_with (fun f r => EPredict (bat_model_of s) f r) frames answers.

(** The same for a whole call: the frames are those the extraction
    from [video_path] returned. *)
Definition predicted_in_order (video_path : string) (s s' : state) : Prop :=
  exists new : list event,
    calls s' = (calls s ++ new)%list /\
    (List.filter is_predict new = [] \/
     exists o frames (answers : list (outcome (bat_results float))),
       In (EGenerate o video_path (Return frames)) new /\
       List.filter is_predict new
         = zip_with (fun f r => EPredict (bat_model_of s) f r) frames answers).

(** Since [s], the context model was asked at most once, and then
    about the first of the frames extracted from [video_path]. *)
Definition once_on_first_frame (video_path : string) (s s' : state) : Prop :=
  exists new : list event,
    calls s' = (calls s ++ new)%list /\
    (List.filter is_inference new = [] \/
     exists o f rest c r,
       In (EGenerate o video_path (Return (f :: rest))) new /\
       List.filter is_inference new = [EInference c f "<BATTING_CONTEXT>" r]).

(** The test of line 91 on a box. *)
Definition above_threshold (b : box float) : bool := fgt (conf0 b) f0_30.

(** The detection dict is the one lines 92-97 make from the box. *)
Definition made_from (b : box float) (d : detection float) : Prop :=
  position d = xyxy0 b /\
  confidence d = conf0 b /\
  calculate_bat_angle (xyxy0 b) = Return (angle d).

(** Calls that set the pipeline up: an instantiation, a model load. *)
Definition is_setup (e : event) : bool :=
  match e with
  | ENew _ _ | ELoadModel _ _ _ => true
  | _ => false
  end.

Definition is_generate (e : event) : bool :=
  match e with EGenerate _ _ _ => true | _ => false end.

(** Since [s], frames were asked for at most once, and then those of
    [video_path]. *)
Definition extracted_once (video_path : string) (s s' : state) : Prop :=
  exists new : list event,
    calls s' = (calls s ++ new)%list /\
    (List.filter is_generate new = [] \/
     exists o r, List.filter is_generate new = [EGenerate o video_path r]).

(** Nothing was printed and no set-up call was made. *)
Definition unseen (s s' : state) : Prop :=
  stdout s' = stdout s /\ none_of is_setup s s'.

End Vocabulary.

(** No call to the context model was made. *)
Abbreviation silent := (none_of is_inference).

(** ** A small concrete world

    Confidences and coordinates are counted in hundredths, frames are
    numbered, and the libraries answer from a fixed script; the angle
    functions are stand-ins.  The world says whether the model file can
    be loaded and whether the user interrupts the frame extraction. *)
Module Toy.

Record toy_world := ToyWorld {
  model_available : bool;
  interrupted : bool;
  ticks : nat
}.

Definition tick (w : toy_world) : toy_world :=
  ToyWorld (model_available w) (interrupted w) (S (ticks w)).

Definition toy_new (c : library_class) (w : toy_world)
    : outcome value * toy_world :=
  (Return (VObj match c with LoadTools => 1 | DataTools => 2 | Florence2 => 3 end),
   tick w).

Definition toy_load_model (o : N) (model_name : string) (w : toy_world)
    : outcome value * toy_world :=
  (if model_available w then Return (VStr ("models/" ++ model_name ++ ".pt"))
   else Raise (Exn (LibraryError "FileNotFoundError") "no such model"),
   tick w).

Definition toy_generate_photo_dataset (o : N) (video_path : string)
    (max_num_frames : Z) (folder : string) (w : toy_world)
    : outcome (list nat) * toy_world :=
  (if interrupted w then Raise (Exn KeyboardInterrupt "")
   else if String.eqb video_path "empty.mp4" then Return []
   else Return [0; 1; 2]%nat,
   tick w).

Definition prediction (f : nat) : bat_results Z :=
  BatResults (VStr (pretty f))
    match f with
    | O => [Box 55 [10; 20; 110; 120]; Box 91 [12; 22; 112; 142];
            Box 25 [0; 0; 5; 5]; Box 91 [14; 24; 114; 104]]
    | 1%nat => [Box 30 [0; 0; 1; 1]]
    | _ => [Box 64 [30; 40; 130; 90]]
    end.

Definition toy_predict (o : N) (f : nat) (conf : Z) (verbose : bool)
    (w : toy_world) : outcome (bat_results Z) * toy_world :=
  (Return (prediction f), tick w).

Definition toy_inference (o : N) (f : nat) (task : string) (w : toy_world)
    : outcome string * toy_world :=
  (Return "batter at the plate", tick w).

Definition toy_info (o : N) (msg : string) (w : toy_world)
    : outcome unit * toy_world :=
  (Return tt, w).

Definition toy_now_isoformat (w : toy_world) : outcome string * toy_world :=
  (Return "2024-05-01T12:00:00", tick w).

#[export] Instance toy : Externals := {|
  World := toy_world;
  float := Z;
  fgt := Z.gtb;
  fsub := Z.sub;
  f0_30 := 30;
  np_arctan2 := fun y x => y - x;
  np_degrees := fun a => a;
  frame := nat;
  context := string;
  lib_new := toy_new;
  lib_load_model := toy_load_model;
  lib_generate_photo_dataset := toy_generate_photo_dataset;
  lib_predict := toy_predict;
  lib_inference := toy_inference;
  lib_info := toy_info;
  lib_now_isoformat := toy_now_isoformat
|}.

(** A pipeline object that has every attribute, the logger included. *)
Definition equipped : pipeline :=
  Pipeline (Some (VObj 1)) (Some (VObj 2)) (Some (VObj 4)) (Some (VObj 3))
    (Some (VObj 5)).

Definition start (p : pipeline) (w : toy_world) : state := State p w [] [].

Definition fine : toy_world := ToyWorld true false 0.
Definition no_model : toy_world := ToyWorld false false 0.
Definition ctrl_c : toy_world := ToyWorld true true 0.

(** What the frame loop collects from the three frames of a video. *)
Definition frame0_data : frame_data Z :=
  FrameData (VStr "0")
    [Detection [10; 20; 110; 120] 55 0; Detection [12; 22; 112; 142] 91 20;
     Detection [14; 24; 114; 104] 91 (-20)]
    None.
Definition frame1_data : frame_data Z := FrameData (VStr "1") [] None.
Definition frame2_data : frame_data Z :=
  FrameData (VStr "2") [Detection [30; 40; 130; 90] 64 (-50)] None.
Definition seen : list (frame_data Z) := [frame0_data; frame1_data; frame2_data].

Definition answer : string := "batter at the plate".

(** The calls the frame loop makes on those frames, and the state it
    leaves when it starts from [start equipped fine]. *)
Definition loop_calls : list event :=
  [EPredict 4 0%nat (Return (prediction 0));
   EInfo 5 "Analyzing game context" (Return tt);
   EInference 3 0%nat "<BATTING_CONTEXT>" (Return answer);
   EPredict 4 1%nat (Return (prediction 1));
   EPredict 4 2%nat (Return (prediction 2))].
Definition after_loop : state :=
  State equipped (ToyWorld true false 4) [] loop_calls.

(** The calls [process_sequence] makes on a video without frames. *)
Definition empty_video_calls : list event :=
  [EInfo 5 "Extracting frames from video sequence" (Return tt);
   EGenerate 2 "empty.mp4" (Return []);
   EInfo 5 "Beginning frame analysis" (Return tt)].
Definition after_empty_video : state :=
  State equipped (ToyWorld true false 1) [] empty_video_calls.

End Toy.

(** * Properties *)

Section Properties.
Context {E : Externals}.

(** ** The closed form of the retry loop *)

Lemma range_nonpos n : n <= 0 -> range n = [].
Proof.
  intros Hn. unfold range.
  replace (Z.to_nat n) with O by lia. reflexivity.
Qed.

Lemma range_pos n : 0 < n -> exists rest, range n = 0 :: rest.
Proof.
  intros Hn. unfold range.
  destruct (Z.to_nat n) as [|k] eqn:Hk; [lia|].
  simpl. eauto.
Qed.

Lemma load_attempt_unfold model_name s :
  load_attempt model_name s =
    match load_model_call model_name s with
    | (Return _, s1) =>
        (Raise (Exn NameError "name 'YOLO' is not defined"), s1)
    | (Raise e, s1) => (Raise e, s1)
    end.
Proof.
  unfold load_attempt, bind.
  destruct (load_model_call model_name s) as [[model_path|e] s1]; reflexivity.
Qed.

Lemma load_attempt_raises model_name s :
  returned (fst (load_attempt model_name s)) = false.
Proof.
  rewrite load_attempt_unfold.
  destruct (load_model_call model_name s) as [[model_path|e] s1]; reflexivity.
Qed.

Lemma retry_loop_first model_name n rest s :
  retry_loop model_name n (0 :: rest) s =
    match load_model_call model_name s with
    | (Raise e, s1) =>
        if is_Exception (exn_class_of e) then first_failure n s1
        else (Raise e, s1)
    | (Return _, s1) => first_failure n s1
    end.
Proof.
  cbn [retry_loop]. unfold try_except. rewrite load_attempt_unfold.
  unfold first_failure.
  replace (0 =? n - 1) with (n =? 1)
    by (destruct (Z.eqb_spec n 1), (Z.eqb_spec 0 (n - 1)); lia || reflexivity).
  destruct (load_model_call model_name s) as [[model_path|e] s1];
    cbn [exn_class_of is_Exception].
  - destruct (n =? 1); reflexivity.
  - destruct (is_Exception (exn_class_of e)); [|reflexivity].
    destruct (n =? 1); reflexivity.
Qed.

Lemma load_model_with_retry_unfold model_name n s :
  load_model_with_retry model_name n s =
    if n <=? 0 then (Return VNone, s)
    else
      match load_model_call model_name s with
      | (Raise e, s1) =>
          if is_Exception (exn_class_of e) then first_failure n s1
          else (Raise e, s1)
      | (Return _, s1) => first_failure n s1
      end.
Proof.
  unfold load_model_with_retry.
  destruct (Z.leb_spec n 0) as [Hn|Hn].
  - rewrite range_nonpos by assumption. reflexivity.
  - destruct (range_pos n Hn) as [rest ->]. apply retry_loop_first.
Qed.

Lemma first_failure_raises n s1 : returned (fst (first_failure n s1)) = false.
Proof. unfold first_failure. destruct (n =? 1); reflexivity. Qed.

Lemma load_model_with_retry_raises model_name n s :
  0 < n -> returned (fst (load_model_with_retry model_name n s)) = false.
Proof.
  intros Hn. rewrite load_model_with_retry_unfold.
  destruct (Z.leb_spec n 0); [lia|].
  destruct (load_model_call model_name s) as [[model_path|e] s1].
  - apply first_failure_raises.
  - destruct (is_Exception (exn_class_of e));
      [apply first_failure_raises | reflexivity].
Qed.

Lemma BatTrackingPipeline_raises s :
  returned (fst (BatTrackingPipeline s)) = false.
Proof.
  unfold BatTrackingPipeline, __init__, bind, extern, setattr. cbn [world].
  destruct (lib_new LoadTools (world s)) as [[lt|e] w1]; [|reflexivity].
  cbn [world].
  destruct (lib_new DataTools w1) as [[dt|e] w2]; [|reflexivity].
  match goal with
  | |- context [load_model_with_retry ?n ?k ?st] =>
      pose proof (load_model_with_retry_raises n k st ltac:(lia)) as Hr;
      destruct (load_model_with_retry n k st) as [[m|e] s3]
  end; [discriminate Hr | reflexivity].
Qed.

(** ** Relations that every statement of a block maintains *)

Section Keeps.
Context (R : state -> state -> Prop) `{!PreOrder R}.

Lemma keeps_ret {A} (a : A) : keeps R (ret a).
Proof. intros s. reflexivity. Qed.

Lemma keeps_raise {A} e : keeps R (raise (A:=A) e).
Proof. intros s. reflexivity. Qed.

Lemma keeps_lift {A} (r : outcome A) : keeps R (lift r).
Proof. intros s. reflexivity. Qed.

Lemma keeps_getattr field name : keeps R (getattr field name).
Proof. intros s. unfold getattr. destruct (field (self s)); reflexivity. Qed.

Lemma keeps_receiver v method : keeps R (receiver v method).
Proof. intros s. destruct v; reflexivity. Qed.

Lemma keeps_bind {A B} (m : M A) (k : A -> M B) :
  keeps R m -> (forall a, keeps R (k a)) -> keeps R (bind m k).
Proof.
  intros Hm Hk s. unfold bind.
  specialize (Hm s). destruct (m s) as [[a|e] s1]; cbn [snd] in *.
  - etransitivity; [exact Hm | apply Hk].
  - exact Hm.
Qed.

Lemma keeps_try_except {A} (body : M A) handler :
  keeps R body -> (forall e, keeps R (handler e)) ->
  keeps R (try_except body handler).
Proof.
  intros Hb Hh s. unfold try_except.
  specialize (Hb s). destruct (body s) as [[a|e] s1]; cbn [snd] in *.
  - exact Hb.
  - destruct (is_Exception (exn_class_of e)); cbn [snd].
    + etransitivity; [exact Hb | apply Hh].
    + exact Hb.
Qed.

End Keeps.

Ltac keeps_step :=
  first
    [ apply keeps_ret; exact _
    | apply keeps_raise; exact _
    | apply keeps_lift; exact _
    | apply keeps_getattr; exact _
    | apply keeps_receiver; exact _
    | apply keeps_bind; [ exact _ | | intros ? ]
    | apply keeps_try_except; [ exact _ | | intros ? ] ].

(** *** The attributes of the pipeline object are left alone *)

#[global] Instance same_self_preorder : PreOrder same_self.
Proof.
  split.
  - intros s. reflexivity.
  - intros s1 s2 s3 H12 H23. unfold same_self in *. congruence.
Qed.

Lemma same_self_extern {A} ev f : keeps same_self (extern (A:=A) ev f).
Proof.
  intros s. unfold extern. destruct (f (world s)) as [r w]. reflexivity.
Qed.

Lemma same_self_print line : keeps same_self (print line).
Proof. intros s. reflexivity. Qed.

(** *** No call of a given kind is made *)

#[global] Instance none_of_preorder kind : PreOrder (none_of kind).
Proof.
  split.
  - intros s. exists []. split; [symmetry; apply app_nil_r | reflexivity].
  - intros s1 s2 s3 [n1 [H1 F1]] [n2 [H2 F2]]. exists (n1 ++ n2)%list. split.
    + rewrite H2, H1. symmetry. apply app_assoc.
    + rewrite List.filter_app, F1, F2. reflexivity.
Qed.

Lemma none_of_extern kind {A} ev f :
  (forall r, kind (ev r) = false) -> keeps (none_of kind) (extern (A:=A) ev f).
Proof.
  intros Hk s. unfold extern. destruct (f (world s)) as [r w].
  exists [ev r]. split; [reflexivity|]. cbn. rewrite Hk. reflexivity.
Qed.

Lemma none_of_print kind line : keeps (none_of kind) (print line).
Proof. intros s. exists []. split; [symmetry; apply app_nil_r | reflexivity]. Qed.

(** *** What the blocks of the pipeline maintain *)

Section Blocks.
Context (R : state -> state -> Prop) `{!PreOrder R}.
Context (R_info : forall o msg, keeps R (extern (EInfo o msg) (lib_info o msg))).
Context (R_now : keeps R (extern ENow lib_now_isoformat)).

Lemma keeps_logger_info msg : keeps R (logger_info msg).
Proof.
  unfold logger_info.
  apply keeps_bind; [exact _ | keeps_step | intros lg].
  apply keeps_bind; [exact _ | keeps_step | intros o].
  apply R_info.
Qed.

Lemma keeps_extract_clean_trajectories sequence_data :
  keeps R (extract_clean_trajectories sequence_data).
Proof. unfold extract_clean_trajectories, undefined_method. keeps_step. Qed.

Lemma keeps_analyze_sequence sequence_data game_context :
  keeps R (analyze_sequence sequence_data game_context).
Proof.
  unfold analyze_sequence.
  apply keeps_bind; [exact _ | apply keeps_extract_clean_trajectories |].
  intros bat_trajectory.
  apply keeps_bind; [exact _ | apply R_now | intros now; keeps_step].
Qed.

Context (R_predict :
  forall o f, keeps R (extern (EPredict o f) (lib_predict o f f0_30 false))).

Lemma keeps_first_frame_context_later idx f game_context :
  idx <> 0 -> keeps R (first_frame_context idx f game_context).
Proof.
  intros Hidx. unfold first_frame_context.
  destruct (Z.eqb_spec idx 0); [contradiction | keeps_step].
Qed.

(** The iterations after the first ask the bat model only. *)
Lemma keeps_frame_loop_later frames : forall idx sequence_data game_context,
  0 < idx ->
  keeps R (frame_loop (enumerate_from idx frames) sequence_data game_context).
Proof.
  induction frames as [|f rest IH]; intros idx sequence_data game_context Hidx.
  - cbn. keeps_step.
  - cbn [enumerate_from frame_loop].
    apply keeps_bind; [exact _ | keeps_step | intros bm].
    apply keeps_bind; [exact _ | keeps_step | intros o].
    apply keeps_bind; [exact _ | apply R_predict | intros bat_results].
    apply keeps_bind;
      [exact _ | apply keeps_first_frame_context_later; lia | intros gc].
    apply keeps_bind; [exact _ | keeps_step | intros fd].
    apply IH. lia.
Qed.

Context (R_inference :
  forall o f task, keeps R (extern (EInference o f task) (lib_inference o f task))).

Lemma keeps_first_frame_context idx f game_context :
  keeps R (first_frame_context idx f game_context).
Proof.
  unfold first_frame_context. destruct (idx =? 0); [|keeps_step].
  apply keeps_bind; [exact _ | apply keeps_logger_info | intros _].
  apply keeps_bind; [exact _ | keeps_step | intros cm].
  apply keeps_bind; [exact _ | keeps_step | intros c].
  apply keeps_bind; [exact _ | apply R_inference | intros answer].
  keeps_step.
Qed.

Lemma keeps_frame_loop frames : forall idx sequence_data game_context,
  keeps R (frame_loop (enumerate_from idx frames) sequence_data game_context).
Proof.
  induction frames as [|f rest IH]; intros idx sequence_data game_context.
  - cbn. keeps_step.
  - cbn [enumerate_from frame_loop].
    apply keeps_bind; [exact _ | keeps_step | intros bm].
    apply keeps_bind; [exact _ | keeps_step | intros o].
    apply keeps_bind; [exact _ | apply R_predict | intros bat_results].
    apply keeps_bind; [exact _ | apply keeps_first_frame_context | intros gc].
    apply keeps_bind; [exact _ | keeps_step | intros fd].
    apply IH.
Qed.

Context (R_generate : forall o video_path n folder,
  keeps R (extern (EGenerate o video_path)
             (lib_generate_photo_dataset o video_path n folder))).

Lemma keeps_process_sequence video_path : keeps R (process_sequence video_path).
Proof.
  unfold process_sequence.
  apply keeps_bind; [exact _ | apply keeps_logger_info | intros _].
  apply keeps_bind; [exact _ | keeps_step | intros dt].
  apply keeps_bind; [exact _ | keeps_step | intros o].
  apply keeps_bind; [exact _ | apply R_generate | intros frames].
  apply keeps_bind; [exact _ | apply keeps_logger_info | intros _].
  apply keeps_bind; [exact _ | apply keeps_frame_loop | intros data].
  apply keeps_analyze_sequence.
Qed.

End Blocks.

(** ** Runs that return *)

Lemma bind_Return {A B} (m : M A) (k : A -> M B) s b s' :
  bind m k s = (Return b, s') ->
  exists a s1, m s = (Return a, s1) /\ k a s1 = (Return b, s').
Proof.
  unfold bind. destruct (m s) as [[a|e] s1]; intros H.
  - eauto.
  - discriminate H.
Qed.

Lemma getattr_Return field name s v s' :
  getattr field name s = (Return v, s') -> field (self s) = Some v /\ s' = s.
Proof.
  unfold getattr. destruct (field (self s)); intros H; inversion H; auto.
Qed.

Lemma receiver_Return v method s o s' :
  receiver v method s = (Return o, s') -> v = VObj o /\ s' = s.
Proof. destruct v; intros H; inversion H; auto. Qed.

Lemma lift_Return {A} (r : outcome A) s a s' :
  lift r s = (Return a, s') -> r = Return a /\ s' = s.
Proof. unfold lift. intros H. inversion H. auto. Qed.

Lemma extern_Return {A} ev f s (a : A) s' :
  extern ev f s = (Return a, s') ->
  exists w, f (world s) = (Return a, w) /\
    s' = State (self s) w (stdout s) (calls s ++ [ev (Return a)]).
Proof.
  unfold extern. destruct (f (world s)) as [r w]. intros H.
  inversion H. subst. eauto.
Qed.

(** The frame loop, when it runs to its end: the bat model was asked
    once per frame, in the order of the frames, and each answer became
    one entry of [sequence_data], in the same order. *)
Lemma frame_loop_Return bm frames :
  forall idx sequence_data game_context s data s',
  bat_model (self s) = Some (VObj bm) ->
  frame_loop (enumerate_from idx frames) sequence_data game_context s
    = (Return data, s') ->
  exists results produced new,
    calls s' = (calls s ++ new)%list /\
    List.filter is_predict new
      = zip_with (fun f r => EPredict bm f (Return r)) frames results /\
    length results = length frames /\
    fst data = (sequence_data ++ produced)%list /\
    Forall2 (fun r fd => process_frame_results r = Return fd) results produced.
Proof.
  induction frames as [|f rest IH];
    intros idx sequence_data game_context s data s' Hbm Hrun.
  - cbn in Hrun. inversion Hrun. subst. exists [], [], [].
    cbn. rewrite !app_nil_r. auto.
  - cbn [enumerate_from frame_loop] in Hrun.
    apply bind_Return in Hrun as (v & s1 & Hget & Hrun).
    apply getattr_Return in Hget as [Hv ->].
    rewrite Hbm in Hv. inversion Hv. subst v.
    apply bind_Return in Hrun as (o & s1 & Hrec & Hrun).
    apply receiver_Return in Hrec as [Ho ->]. inversion Ho. subst o.
    apply bind_Return in Hrun as (r & s1 & Hpred & Hrun).
    apply extern_Return in Hpred as (w & Hw & ->).
    apply bind_Return in Hrun as (gc & s2 & Hctx & Hrun).
    apply bind_Return in Hrun as (fd & s3 & Hfd & Hrun).
    apply lift_Return in Hfd as [Hfd ->].
    pose proof (keeps_first_frame_context same_self
                  (fun o msg => same_self_extern _ _)
                  (fun o f task => same_self_extern _ _) idx f game_context
                  (State (self s) w (stdout s)
                     (calls s ++ [EPredict bm f (Return r)]))) as Hself.
    pose proof (keeps_first_frame_context (none_of is_predict)
                  (fun o msg =>
                     none_of_extern is_predict (EInfo o msg) _
                       (fun _ => eq_refl))
                  (fun o f task =>
                     none_of_extern is_predict (EInference o f task) _
                       (fun _ => eq_refl))
                  idx f game_context
                  (State (self s) w (stdout s)
                     (calls s ++ [EPredict bm f (Return r)])))
      as (quiet & Hquiet & Hnone).
    rewrite Hctx in Hself, Hquiet. cbn [snd] in Hself, Hquiet.
    unfold same_self in Hself. cbn [self calls] in Hself, Hquiet.
    assert (Hbm2 : bat_model (self s2) = Some (VObj bm)) by congruence.
    destruct (IH _ _ _ _ _ _ Hbm2 Hrun)
      as (results & produced & new & Hcalls & Hfilter & Hlen & Hdata & Hall).
    exists (r :: results), (fd :: produced),
      ((EPredict bm f (Return r) :: quiet) ++ new)%list.
    repeat split.
    + rewrite Hcalls, Hquiet. rewrite <- !app_assoc. reflexivity.
    + rewrite List.filter_app. cbn. rewrite Hnone, Hfilter. reflexivity.
    + cbn. congruence.
    + rewrite Hdata, <- app_assoc. reflexivity.
    + constructor; assumption.
Qed.

(** ** The context model is asked at most once *)

Lemma keeps_bind_het {A B} (R1 R2 R3 : state -> state -> Prop)
    (m : M A) (k : A -> M B) :
  (forall s1 s2, R1 s1 s2 -> R3 s1 s2) ->
  (forall s1 s2 s3, R1 s1 s2 -> R2 s2 s3 -> R3 s1 s3) ->
  keeps R1 m -> (forall a, keeps R2 (k a)) -> keeps R3 (bind m k).
Proof.
  intros Hstop Hseq Hm Hk s. unfold bind.
  specialize (Hm s). destruct (m s) as [[a|e] s1]; cbn [snd] in *.
  - eapply Hseq; [exact Hm | apply Hk].
  - apply Hstop, Hm.
Qed.

Lemma silent_once f s s' : silent s s' -> once f s s'.
Proof. intros (new & Hc & Hf). exists new. auto. Qed.

Lemma silent_then_once f s1 s2 s3 : silent s1 s2 -> once f s2 s3 -> once f s1 s3.
Proof.
  intros (n1 & H1 & F1) (n2 & H2 & F2). exists (n1 ++ n2)%list. split.
  - rewrite H2, H1. symmetry. apply app_assoc.
  - rewrite List.filter_app, F1. exact F2.
Qed.

Lemma once_then_silent f s1 s2 s3 : once f s1 s2 -> silent s2 s3 -> once f s1 s3.
Proof.
  intros (n1 & H1 & F1) (n2 & H2 & F2). exists (n1 ++ n2)%list. split.
  - rewrite H2, H1. symmetry. apply app_assoc.
  - rewrite List.filter_app, F2, app_nil_r. exact F1.
Qed.

Lemma silent_info o msg : keeps silent (extern (EInfo o msg) (lib_info o msg)).
Proof. apply none_of_extern. reflexivity. Qed.

Lemma silent_predict o f :
  keeps silent (extern (EPredict o f) (lib_predict o f f0_30 false)).
Proof. apply none_of_extern. reflexivity. Qed.

Lemma silent_now : keeps silent (extern ENow lib_now_isoformat).
Proof. apply none_of_extern. reflexivity. Qed.

Lemma silent_generate o video_path n folder :
  keeps silent (extern (EGenerate o video_path)
                  (lib_generate_photo_dataset o video_path n folder)).
Proof. apply none_of_extern. reflexivity. Qed.

Lemma once_inference c f :
  keeps (once f)
    (extern (EInference c f "<BATTING_CONTEXT>")
       (lib_inference c f "<BATTING_CONTEXT>")).
Proof.
  intros s. unfold extern.
  destruct (lib_inference c f "<BATTING_CONTEXT>" (world s)) as [r w].
  exists [EInference c f "<BATTING_CONTEXT>" r]. split; [reflexivity|]. right. eauto.
Qed.

Lemma once_first_frame_context f game_context :
  keeps (once f) (first_frame_context 0 f game_context).
Proof.
  unfold first_frame_context. cbn [Z.eqb].
  eapply keeps_bind_het;
    [apply silent_once | apply silent_then_once
    | apply (keeps_logger_info silent silent_info) | intros _].
  eapply keeps_bind_het;
    [apply silent_once | apply silent_then_once | keeps_step | intros cm].
  eapply keeps_bind_het;
    [apply silent_once | apply silent_then_once | keeps_step | intros c].
  eapply keeps_bind_het with (R1 := once f) (R2 := silent);
    [auto | apply once_then_silent | apply once_inference | intros answer].
  keeps_step.
Qed.

Lemma once_frame_loop f rest sequence_data game_context :
  keeps (once f) (frame_loop (enumerate (f :: rest)) sequence_data game_context).
Proof.
  unfold enumerate. cbn [enumerate_from frame_loop].
  eapply keeps_bind_het;
    [apply silent_once | apply silent_then_once | keeps_step | intros bm].
  eapply keeps_bind_het;
    [apply silent_once | apply silent_then_once | keeps_step | intros o].
  eapply keeps_bind_het;
    [apply silent_once | apply silent_then_once | apply silent_predict
    | intros bat_results].
  eapply keeps_bind_het with (R1 := once f) (R2 := silent);
    [auto | apply once_then_silent | apply once_first_frame_context
    | intros gc].
  apply keeps_bind; [exact _ | keeps_step | intros fd].
  apply (keeps_frame_loop_later silent silent_predict). lia.
Qed.

Lemma silent_once_on_first_frame video_path s s' :
  silent s s' -> once_on_first_frame video_path s s'.
Proof. intros (new & Hc & Hf). exists new. auto. Qed.

Lemma silent_then_once_on_first_frame video_path s1 s2 s3 :
  silent s1 s2 -> once_on_first_frame video_path s2 s3 ->
  once_on_first_frame video_path s1 s3.
Proof.
  intros (n1 & H1 & F1) (n2 & H2 & F2). exists (n1 ++ n2)%list. split.
  - rewrite H2, H1. symmetry. apply app_assoc.
  - rewrite List.filter_app, F1. cbn [app].
    destruct F2 as [F2 | (o & f & rest & c & r & Hin & F2)]; [auto|].
    right. exists o, f, rest, c, r. split; [|exact F2].
    apply in_or_app. auto.
Qed.

(** What follows the extraction of the frames (lines 55-77). *)
Lemma after_generate frames :
  keeps (match frames with
         | [] => silent
         | f :: _ => once f
         end)
    (bind (logger_info "Beginning frame analysis")
       (fun _ =>
          bind (frame_loop (enumerate frames) [] None)
            (fun data => analyze_sequence (fst data) (snd data)))).
Proof.
  pose proof (keeps_analyze_sequence silent silent_now) as Han.
  pose proof (keeps_logger_info silent silent_info) as Hlog.
  destruct frames as [|f rest].
  - apply keeps_bind; [exact _ | apply Hlog | intros _].
    apply keeps_bind; [exact _ | cbn; keeps_step | intros data]. apply Han.
  - eapply keeps_bind_het;
      [apply silent_once | apply silent_then_once | apply Hlog | intros _].
    eapply keeps_bind_het with (R1 := once f) (R2 := silent);
      [auto | apply once_then_silent | apply once_frame_loop | intros data].
    apply Han.
Qed.

Lemma process_sequence_inference video_path :
  keeps (once_on_first_frame video_path) (process_sequence video_path).
Proof.
  unfold process_sequence.
  eapply keeps_bind_het;
    [apply silent_once_on_first_frame | apply silent_then_once_on_first_frame
    | apply (keeps_logger_info silent silent_info) | intros _].
  eapply keeps_bind_het;
    [apply silent_once_on_first_frame | apply silent_then_once_on_first_frame
    | keeps_step | intros dt].
  eapply keeps_bind_het;
    [apply silent_once_on_first_frame | apply silent_then_once_on_first_frame
    | keeps_step | intros o].
  intros s. unfold bind at 1, extern at 1.
  destruct (lib_generate_photo_dataset o video_path 60 "swing_analysis_frames"
              (world s)) as [[frames|e] w]; cbn [snd].
  - match goal with
    | |- once_on_first_frame _ _ (snd (_ ?st)) =>
        pose proof (after_generate frames st) as Hrest
    end.
    destruct frames as [|f rest].
    + apply silent_then_once_on_first_frame with (s2 :=
        State (self s) w (stdout s)
          (calls s ++ [EGenerate o video_path (Return [])])).
      * exists [EGenerate o video_path (Return [])]. split; reflexivity.
      * apply silent_once_on_first_frame. exact Hrest.
    + destruct Hrest as (new & Hcalls & Hnew).
      exists (EGenerate o video_path (Return (f :: rest)) :: new). split.
      * rewrite Hcalls. cbn [calls]. rewrite <- app_assoc. reflexivity.
      * cbn [List.filter is_inference].
        destruct Hnew as [Hnew | (c & r & Hnew)]; [auto|].
        right. exists o, f, rest, c, r. split; [left; reflexivity | exact Hnew].
  - exists [EGenerate o video_path (Raise e)]. split; [reflexivity | auto].
Qed.

(** ** The bat model is asked frame by frame *)

#[global] Instance calm_preorder : PreOrder calm.
Proof.
  split.
  - intros s. split; reflexivity.
  - intros s1 s2 s3 [Ha1 Hb1] [Ha2 Hb2].
    split; etransitivity; eassumption.
Qed.

Lemma calm_extern {A} ev f :
  (forall r, is_predict (ev r) = false) -> keeps calm (extern (A:=A) ev f).
Proof.
  intros Hev s. split.
  - apply same_self_extern.
  - apply none_of_extern, Hev.
Qed.

Lemma calm_info o msg : keeps calm (extern (EInfo o msg) (lib_info o msg)).
Proof. apply calm_extern. reflexivity. Qed.

Lemma calm_inference o f task :
  keeps calm (extern (EInference o f task) (lib_inference o f task)).
Proof. apply calm_extern. reflexivity. Qed.

Lemma calm_now : keeps calm (extern ENow lib_now_isoformat).
Proof. apply calm_extern. reflexivity. Qed.

Lemma calm_generate o video_path n folder :
  keeps calm (extern (EGenerate o video_path)
                (lib_generate_photo_dataset o video_path n folder)).
Proof. apply calm_extern. reflexivity. Qed.

Lemma bat_model_of_same s s' : same_self s s' -> bat_model_of s' = bat_model_of s.
Proof. unfold same_self, bat_model_of. intros ->. reflexivity. Qed.

Lemma calm_predicted frames s s' : calm s s' -> predicted frames s s'.
Proof.
  intros [Hself (new & Hcalls & Hnone)]. split; [exact Hself|].
  exists new, []. rewrite Hnone. split; [exact Hcalls|].
  destruct frames; reflexivity.
Qed.

Lemma calm_then_predicted frames s1 s2 s3 :
  calm s1 s2 -> predicted frames s2 s3 -> predicted frames s1 s3.
Proof.
  intros [Hself (n1 & H1 & F1)] [Hself2 (n2 & answers & H2 & F2)]. split.
  - etransitivity; eassumption.
  - exists (n1 ++ n2)%list, answers. split.
    + rewrite H2, H1. symmetry. apply app_assoc.
    + rewrite List.filter_app, F1, F2, (bat_model_of_same _ _ Hself).
      reflexivity.
Qed.

(** One more frame in front: the call about it, then calm, then the
    calls about the frames that follow. *)
Lemma predicted_cons f rest r s s1 s2 s3 :
  bat_model (self s) = Some (VObj (bat_model_of s)) ->
  s1 = State (self s) (world s1) (stdout s)
         (calls s ++ [EPredict (bat_model_of s) f r]) ->
  calm s1 s2 -> predicted rest s2 s3 -> predicted (f :: rest) s s3.
Proof.
  intros Hbm Hs1 [Hself (n1 & H1 & F1)] [Hself2 (n2 & answers & H2 & F2)].
  assert (Hs : same_self s s1) by (rewrite Hs1; reflexivity).
  split; [etransitivity; [exact Hs | etransitivity; eassumption]|].
  exists ((EPredict (bat_model_of s) f r :: n1) ++ n2)%list, (r :: answers).
  split.
  - rewrite H2, H1, Hs1. cbn [calls]. rewrite <- !app_assoc. reflexivity.
  - rewrite List.filter_app. cbn [List.filter is_predict].
    rewrite F1, F2. cbn [app zip_with].
    rewrite (bat_model_of_same _ _ Hself), (bat_model_of_same _ _ Hs).
    reflexivity.
Qed.

Lemma predicted_frame_loop frames : forall idx sequence_data game_context,
  keeps (predicted frames)
    (frame_loop (enumerate_from idx frames) sequence_data game_context).
Proof.
  induction frames as [|f rest IH]; intros idx sequence_data game_context s.
  - apply calm_predicted. reflexivity.
  - cbn [enumerate_from frame_loop]. unfold bind at 1, getattr.
    destruct (bat_model (self s)) as [v|] eqn:Hbm;
      [|apply calm_predicted; reflexivity].
    unfold bind at 1.
    destruct v as [|o|path]; cbn [receiver raise ret];
      try (apply calm_predicted; reflexivity).
    assert (Ho : bat_model_of s = o) by (unfold bat_model_of; rewrite Hbm; reflexivity).
    unfold bind at 1, extern.
    destruct (lib_predict o f f0_30 false (world s)) as [r w].
    set (s1 := State (self s) w (stdout s) (calls s ++ [EPredict o f r])).
    assert (Hfirst : forall s2 s3,
              calm s1 s2 -> predicted rest s2 s3 -> predicted (f :: rest) s s3).
    { intros s2 s3. apply (predicted_cons f rest r s s1).
      - rewrite Ho. exact Hbm.
      - rewrite Ho. reflexivity. }
    destruct r as [bat_results|e]; cbn [snd].
    + unfold bind at 1.
      pose proof (keeps_first_frame_context calm calm_info calm_inference
                    idx f game_context s1) as Hctx.
      destruct (first_frame_context idx f game_context s1) as [[gc|e] s2];
        cbn [snd] in *;
        [|apply (Hfirst s2 s2 Hctx), calm_predicted; reflexivity].
      unfold bind at 1, lift.
      destruct (process_frame_results bat_results) as [fd|e]; cbn [snd];
        [|apply (Hfirst s2 s2 Hctx), calm_predicted; reflexivity].
      apply (Hfirst s2 _ Hctx), IH.
    + apply (Hfirst s1 s1); [reflexivity | apply calm_predicted; reflexivity].
Qed.

Lemma calm_predicted_in_order video_path s s' :
  calm s s' -> predicted_in_order video_path s s'.
Proof. intros [_ (new & Hc & Hf)]. exists new. auto. Qed.

Lemma calm_then_predicted_in_order video_path s1 s2 s3 :
  calm s1 s2 -> predicted_in_order video_path s2 s3 ->
  predicted_in_order video_path s1 s3.
Proof.
  intros [Hself (n1 & H1 & F1)] (n2 & H2 & F2). exists (n1 ++ n2)%list. split.
  - rewrite H2, H1. symmetry. apply app_assoc.
  - rewrite List.filter_app, F1. cbn [app].
    destruct F2 as [F2 | (o & frames & answers & Hin & F2)]; [auto|].
    right. exists o, frames, answers. split; [apply in_or_app; auto|].
    rewrite F2, (bat_model_of_same _ _ Hself). reflexivity.
Qed.

(** In every call of [process_sequence], however it ends, the bat
    model is asked about the extracted frames one after the other, in
    the order of the extraction. *)
Lemma process_sequence_predicts_in_order video_path :
  keeps (predicted_in_order video_path) (process_sequence video_path).
Proof.
  unfold process_sequence.
  eapply keeps_bind_het;
    [apply calm_predicted_in_order | apply calm_then_predicted_in_order
    | apply (keeps_logger_info calm calm_info) | intros _].
  eapply keeps_bind_het;
    [apply calm_predicted_in_order | apply calm_then_predicted_in_order
    | keeps_step | intros dt].
  eapply keeps_bind_het;
    [apply calm_predicted_in_order | apply calm_then_predicted_in_order
    | keeps_step | intros o].
  intros s. unfold bind at 1, extern at 1.
  destruct (lib_generate_photo_dataset o video_path 60 "swing_analysis_frames"
              (world s)) as [[frames|e] w]; cbn [snd];
    [|exists [EGenerate o video_path (Raise e)]; split; [reflexivity | auto]].
  set (s1 := State (self s) w (stdout s)
               (calls s ++ [EGenerate o video_path (Return frames)])).
  assert (Hrest : predicted frames s1
            (snd (bind (logger_info "Beginning frame analysis")
                    (fun _ =>
                       bind (frame_loop (enumerate frames) [] None)
                         (fun data => analyze_sequence (fst data) (snd data)))
                    s1))).
  { revert s1. generalize (State (self s) w (stdout s)
               (calls s ++ [EGenerate o video_path (Return frames)])).
    change (keeps (predicted frames)
              (bind (logger_info "Beginning frame analysis")
                 (fun _ =>
                    bind (frame_loop (enumerate frames) [] None)
                      (fun data => analyze_sequence (fst data) (snd data))))).
    eapply keeps_bind_het;
      [apply calm_predicted | apply calm_then_predicted
      | apply (keeps_logger_info calm calm_info) | intros _].
    eapply keeps_bind_het with (R1 := predicted frames) (R2 := calm).
    - auto.
    - intros s2 s3 s4 [Hself (new & answers & Hc & Hf)]
        [Hself' (new' & Hc' & Hf')].
      split; [etransitivity; eassumption|].
      exists (new ++ new')%list, answers. split.
      + rewrite Hc', Hc. symmetry. apply app_assoc.
      + rewrite List.filter_app, Hf, Hf'. apply app_nil_r.
    - apply predicted_frame_loop.
    - intros data. apply (keeps_analyze_sequence calm calm_now). }
  destruct Hrest as [Hself (new & answers & Hcalls & Hfilter)].
  exists (EGenerate o video_path (Return frames) :: new). split.
  - rewrite Hcalls. unfold s1. cbn [calls]. rewrite <- app_assoc. reflexivity.
  - right. exists o, frames, answers. split; [left; reflexivity|].
    cbn [List.filter is_predict]. rewrite Hfilter. reflexivity.
Qed.

(** ** The pipeline never hands a result back *)

Lemma extract_clean_trajectories_raises sequence_data s :
  extract_clean_trajectories sequence_data s
    = (Raise (no_attribute "BatTrackingPipeline"
                "interpolate_missing_trajectories"), s).
Proof. reflexivity. Qed.

Lemma analyze_sequence_raises sequence_data game_context s :
  analyze_sequence sequence_data game_context s
    = (Raise (no_attribute "BatTrackingPipeline"
                "interpolate_missing_trajectories"), s).
Proof. reflexivity. Qed.

Lemma process_sequence_raises video_path s :
  returned (fst (process_sequence video_path s)) = false.
Proof.
  destruct (process_sequence video_path s) as [[results|e] s'] eqn:Hrun;
    [|reflexivity].
  unfold process_sequence in Hrun.
  apply bind_Return in Hrun as (? & ? & _ & Hrun).
  apply bind_Return in Hrun as (? & ? & _ & Hrun).
  apply bind_Return in Hrun as (? & ? & _ & Hrun).
  apply bind_Return in Hrun as (? & ? & _ & Hrun).
  apply bind_Return in Hrun as (? & ? & _ & Hrun).
  apply bind_Return in Hrun as (data & s6 & _ & Hrun).
  rewrite analyze_sequence_raises in Hrun. discriminate Hrun.
Qed.

Lemma analyze_try_unfold video_path s :
  analyze_try video_path s =
    match process_sequence video_path s with
    | (Return results, s1) =>
        (Return (Some results),
         State (self s1) (world s1)
           (stdout s1 ++ ["Successfully analyzed swing sequence of "
                            ++ pretty (sequence_length results) ++ " frames"])
           (calls s1))
    | (Raise e, s1) =>
        if is_Exception (exn_class_of e) then
          (Return None,
           State (self s1) (world s1)
             (stdout s1 ++ ["Analysis failed: " ++ str e]) (calls s1))
        else (Raise e, s1)
    end.
Proof.
  unfold analyze_try, try_except, bind at 1.
  destruct (process_sequence video_path s) as [[results|e] s1].
  - reflexivity.
  - destruct (is_Exception (exn_class_of e)); reflexivity.
Qed.

(** As the constructor never returns, neither does
    [analyze_baseball_swing]. *)
Lemma analyze_baseball_swing_raises video_path s :
  returned (fst (analyze_baseball_swing video_path s)) = false.
Proof.
  unfold analyze_baseball_swing, bind.
  pose proof (BatTrackingPipeline_raises s) as Hr.
  destruct (BatTrackingPipeline s) as [[u|e] s1];
    [discriminate Hr | reflexivity].
Qed.

(** ** The best detection of a frame *)

Section Best.
Hypothesis fgt_irrefl : forall x, fgt x x = false.
Hypothesis fgt_trans :
  forall x y z, fgt x y = true -> fgt y z = true -> fgt x z = true.

(** Whatever beats the result of [max] beats the item it started from. *)
Lemma max_confidence_above items : forall best x,
  fgt x (confidence (max_confidence best items)) = true ->
  fgt x (confidence best) = true.
Proof.
  induction items as [|d rest IH]; intros best x Hx; cbn in Hx.
  - exact Hx.
  - destruct (fgt (confidence d) (confidence best)) eqn:Hd.
    + eapply fgt_trans; [apply IH, Hx | exact Hd].
    + apply IH, Hx.
Qed.

Lemma max_confidence_highest items : forall best d,
  In d (best :: items) ->
  fgt (confidence d) (confidence (max_confidence best items)) = false.
Proof.
  induction items as [|y rest IH]; intros best d Hin.
  - destruct Hin as [<-|[]]. apply fgt_irrefl.
  - cbn [max_confidence].
    destruct (fgt (confidence y) (confidence best)) eqn:Hy.
    + destruct Hin as [<-|Hin]; [|apply IH, Hin].
      destruct (fgt (confidence best) (confidence (max_confidence y rest)))
        eqn:Hb; [|reflexivity].
      apply max_confidence_above in Hb.
      rewrite <- (fgt_irrefl (confidence best)). symmetry.
      eapply fgt_trans; eassumption.
    + destruct Hin as [<-|[<-|Hin]].
      * apply IH. left. reflexivity.
      * destruct (fgt (confidence y) (confidence (max_confidence best rest)))
          eqn:Hb; [|reflexivity].
        apply max_confidence_above in Hb. congruence.
      * apply IH. right. exact Hin.
Qed.

End Best.

Lemma max_confidence_In items : forall best,
  In (max_confidence best items) (best :: items).
Proof.
  induction items as [|d rest IH]; intros best; cbn [max_confidence].
  - left. reflexivity.
  - destruct (fgt (confidence d) (confidence best)).
    + right. apply IH.
    + destruct (IH best) as [H|H]; [left; exact H | right; right; exact H].
Qed.

Lemma trajectories_loop_fmap sequence_data : forall trajectories,
  trajectories_loop sequence_data trajectories
    = (trajectories ++ (trajectory_entry <$> sequence_data))%list.
Proof.
  induction sequence_data as [|fd rest IH]; intros trajectories;
    cbn [trajectories_loop].
  - rewrite fmap_nil. symmetry. apply app_nil_r.
  - rewrite IH, fmap_cons, <- app_assoc. reflexivity.
Qed.

Lemma unbound_names :
  ~ In "YOLO" module_globals /\ ~ In "time" module_globals /\
  ~ In "setup_logging" class_namespace /\
  ~ In "interpolate_missing_trajectories" class_namespace.
Proof. cbn. repeat split; intros H; intuition discriminate. Qed.

End Properties.

(** * The statements about the pipeline *)

Section Statements.
Context {E : Externals}.

(** C6.  For every trajectory handed to it, [None] and the empty list
    included, [calculate_swing_metrics] returns the same placeholder
    dict, all zeros and no contact point: the branch on the trajectory
    computes nothing. *)
Theorem calculate_swing_metrics_placeholder (bat_trajectory : trajectory float) :
  calculate_swing_metrics bat_trajectory
    = {| max_bat_speed := 0; swing_plane_angle := 0;
         contact_point := None; swing_duration := 0 |}.
Proof.
  unfold calculate_swing_metrics.
  destruct (truthy bat_trajectory); reflexivity.
Qed.

(** C8.  Whatever [process_sequence] and the methods it calls do, and
    however they end, the attributes of the pipeline object are the
    ones it had before: nothing assigns to [self]. *)
Theorem process_sequence_leaves_attributes
    video_path frames idx sequence_data game_context s :
  self (snd (process_sequence video_path s)) = self s /\
  self (snd (frame_loop (enumerate_from idx frames) sequence_data
               game_context s)) = self s /\
  self (snd (analyze_sequence sequence_data game_context s)) = self s /\
  self (snd (extract_clean_trajectories sequence_data s)) = self s.
Proof.
  pose proof (fun o msg =>
    same_self_extern (EInfo o msg) (lib_info o msg)) as Hinfo.
  pose proof (same_self_extern ENow lib_now_isoformat) as Hnow.
  pose proof (fun o f =>
    same_self_extern (EPredict o f) (lib_predict o f f0_30 false)) as Hpredict.
  pose proof (fun o f t =>
    same_self_extern (EInference o f t) (lib_inference o f t)) as Hinference.
  pose proof (fun o v n d =>
    same_self_extern (EGenerate o v) (lib_generate_photo_dataset o v n d))
    as Hgenerate.
  split; [|split; [|split]].
  - exact (keeps_process_sequence same_self Hinfo Hnow Hpredict Hinference
             Hgenerate video_path s).
  - exact (keeps_frame_loop same_self Hinfo Hpredict Hinference frames idx
             sequence_data game_context s).
  - exact (keeps_analyze_sequence same_self Hnow sequence_data game_context s).
  - exact (keeps_extract_clean_trajectories same_self sequence_data s).
Qed.

(** C7.  The loop of [process_sequence] takes the frames one at a time
    in the order they were extracted: when it runs to its end, the bat
    model has been asked exactly once per frame, in that order, and for
    every index [i] the [i]-th entry of [sequence_data] is what
    [process_frame_results] made of the prediction on the [i]-th frame. *)
Theorem process_sequence_frame_order
    (frames : list frame) s sequence_data game_context s' :
  frame_loop (enumerate frames) [] None s
    = (Return (sequence_data, game_context), s') ->
  exists (bm : N) (new : list event),
    calls s' = (calls s ++ new)%list /\
    length (List.filter is_predict new) = length frames /\
    length sequence_data = length frames /\
    forall (i : nat) (f : frame),
      frames !! i = Some f ->
      exists r fd,
        List.filter is_predict new !! i = Some (EPredict bm f (Return r)) /\
        process_frame_results r = Return fd /\
        sequence_data !! i = Some fd.
Proof.
  intros Hrun.
  assert (Hbm : exists bm, frames = [] \/ bat_model (self s) = Some (VObj bm)).
  { destruct frames as [|f rest]; [exists 0%N; auto|].
    pose proof Hrun as Hfirst. unfold enumerate in Hfirst.
    cbn [enumerate_from frame_loop] in Hfirst.
    apply bind_Return in Hfirst as (v & s1 & Hget & Hfirst).
    apply getattr_Return in Hget as [Hv ->].
    apply bind_Return in Hfirst as (o & s1 & Hrec & _).
    apply receiver_Return in Hrec as [-> _]. eauto. }
  destruct Hbm as [bm [-> | Hbm]].
  - cbn in Hrun. inversion Hrun. subst. exists bm, [].
    rewrite app_nil_r. repeat split; try reflexivity.
    intros i f Hf. rewrite lookup_nil in Hf. discriminate Hf.
  - destruct (frame_loop_Return bm frames 0 [] None s _ s' Hbm Hrun)
      as (results & produced & new & Hcalls & Hfilter & Hlen & Hdata & Hall).
    cbn [fst app] in Hdata. subst produced.
    exists bm, new. split; [exact Hcalls|].
    split; [rewrite Hfilter, length_zip_with; lia|].
    split; [rewrite <- (Forall2_length _ _ _ Hall); exact Hlen|].
    intros i f Hf.
    destruct (lookup_lt_is_Some_2 results i) as [r Hr].
    { rewrite Hlen. eapply lookup_lt_Some, Hf. }
    destruct (Forall2_lookup_l _ _ _ _ _ Hall Hr) as (fd & Hfd & Hmade).
    exists r, fd. split; [|auto].
    rewrite Hfilter, lookup_zip_with, Hf, Hr. reflexivity.
Qed.

(** C2.  For every frame with detections, the trajectory entry that
    [extract_clean_trajectories] builds carries the position and the
    angle of a detection of that frame that no other detection of the
    frame exceeds in confidence; for a frame without detections the
    entry is [None].  The comparison of confidences is taken to be a
    strict order, as [>] on floats is. *)
Theorem extract_clean_trajectories_best_detection
    (fgt_irrefl : forall x, fgt x x = false)
    (fgt_trans :
       forall x y z, fgt x y = true -> fgt y z = true -> fgt x z = true)
    (sequence_data : list (frame_data float)) (i : nat) fd :
  sequence_data !! i = Some fd ->
  (bat_detections fd = [] ->
   trajectories_loop sequence_data [] !! i = Some None) /\
  (bat_detections fd <> [] ->
   exists best,
     In best (bat_detections fd) /\
     (forall d, In d (bat_detections fd) ->
        fgt (confidence d) (confidence best) = false) /\
     trajectories_loop sequence_data [] !! i
       = Some (Some {| tp_position := position best;
                       tp_angle := angle best |})).
Proof.
  intros Hfd.
  assert (Hentry :
    trajectories_loop sequence_data [] !! i = Some (trajectory_entry fd)).
  { rewrite trajectories_loop_fmap. cbn [app].
    rewrite list_lookup_fmap, Hfd. reflexivity. }
  rewrite Hentry. unfold trajectory_entry.
  destruct (bat_detections fd) as [|first others].
  - split; [reflexivity | intros H; contradiction].
  - split; [intros H; discriminate H | intros _].
    exists (max_confidence first others). split; [apply max_confidence_In|].
    split; [|reflexivity].
    intros d Hd. apply max_confidence_highest; assumption.
Qed.

(** C4.  Every exception leaving [process_sequence] that is an instance
    of [Exception] is caught by the [try] statement of
    [analyze_baseball_swing]: one line, ["Analysis failed: "] followed
    by the text of the exception, is printed, and [None] is returned. *)
Theorem analyze_try_reports_failure video_path s e s1 :
  process_sequence video_path s = (Raise e, s1) ->
  is_Exception (exn_class_of e) = true ->
  analyze_try video_path s
    = (Return None,
       State (self s1) (world s1)
         (stdout s1 ++ ["Analysis failed: " ++ str e]) (calls s1)).
Proof.
  intros Hrun Hclass. rewrite analyze_try_unfold, Hrun, Hclass. reflexivity.
Qed.

(** C3.  [extract_clean_trajectories] raises [AttributeError] on every
    input, from the lookup of [interpolate_missing_trajectories];
    hence [process_sequence] never returns, and the [try] statement of
    [analyze_baseball_swing] either returns [None] or lets an exception
    through that is no [Exception].  The pipeline is constructed
    before that [try]: an exception of the constructor leaves
    [analyze_baseball_swing] as it is. *)
Theorem interpolate_missing_trajectories_missing :
  (forall sequence_data s,
     extract_clean_trajectories sequence_data s
       = (Raise (Exn AttributeError
                   "'BatTrackingPipeline' object has no attribute 'interpolate_missing_trajectories'"),
          s)) /\
  (forall video_path s,
     returned (fst (process_sequence video_path s)) = false) /\
  (forall video_path s,
     fst (analyze_try video_path s) = Return None \/
     exists e, fst (analyze_try video_path s) = Raise e /\
               is_Exception (exn_class_of e) = false) /\
  (forall video_path s,
     analyze_baseball_swing video_path s
       = match BatTrackingPipeline s with
         | (Return _, s1) => analyze_try video_path s1
         | (Raise e, s1) => (Raise e, s1)
         end).
Proof.
  split; [intros; apply extract_clean_trajectories_raises|].
  split; [apply process_sequence_raises|].
  split.
  - intros video_path s. rewrite analyze_try_unfold.
    pose proof (process_sequence_raises video_path s) as Hr.
    destruct (process_sequence video_path s) as [[results|e] s1];
      [discriminate Hr|].
    destruct (is_Exception (exn_class_of e)) eqn:He; [left; reflexivity|].
    right. exists e. auto.
  - intros video_path s. unfold analyze_baseball_swing, bind.
    destruct (BatTrackingPipeline s) as [[u|e] s1]; reflexivity.
Qed.

(** C9.  [load_model_with_retry] never returns a model.  With no
    attempt to make it returns [None]; otherwise the first attempt
    ends the call.  A successful [load_model] is followed by the
    [NameError] on [YOLO], which the function's own [except Exception]
    catches like any failed load; the handler then raises the generic
    failure when the attempt was the last one, and the [NameError] on
    [time] (after printing, before any sleep or retry) when it was not.
    An exception that is no [Exception] passes through. *)
Theorem load_model_with_retry_never_loads model_name max_attempts s :
  load_attempt model_name s
    = match load_model_call model_name s with
      | (Return _, s1) =>
          (Raise (Exn NameError "name 'YOLO' is not defined"), s1)
      | (Raise e, s1) => (Raise e, s1)
      end /\
  load_model_with_retry model_name max_attempts s
    = (if max_attempts <=? 0 then (Return VNone, s)
       else
         match load_model_call model_name s with
         | (Raise e, s1) =>
             if is_Exception (exn_class_of e)
             then first_failure max_attempts s1
             else (Raise e, s1)
         | (Return _, s1) => first_failure max_attempts s1
         end) /\
  (forall o s', load_model_with_retry model_name max_attempts s
                  <> (Return (VObj o), s')).
Proof.
  split; [apply load_attempt_unfold|].
  split; [apply load_model_with_retry_unfold|].
  intros o s' Hret.
  destruct (Z.leb_spec max_attempts 0) as [Hn|Hn].
  - rewrite load_model_with_retry_unfold in Hret.
    destruct (Z.leb_spec max_attempts 0); [|lia]. discriminate Hret.
  - pose proof (load_model_with_retry_raises model_name max_attempts s Hn) as Hr.
    rewrite Hret in Hr. discriminate Hr.
Qed.

End Statements.

(** * Further properties of the methods *)

Section Detections.
Context {E : Externals}.

Lemma calculate_bat_angle_returned (bat_box : list float) :
  returned (calculate_bat_angle bat_box) = true <-> length bat_box = 4%nat.
Proof.
  destruct bat_box as [|x1 [|y1 [|x2 [|y2 [|z more]]]]];
    cbv beta iota delta [calculate_bat_angle returned length];
    split; intros H; try discriminate H; reflexivity.
Qed.

Lemma calculate_bat_angle_ValueError (bat_box : list float) e :
  calculate_bat_angle bat_box = Raise e -> exn_class_of e = ValueError.
Proof.
  destruct bat_box as [|x1 [|y1 [|x2 [|y2 [|z more]]]]];
    cbv beta iota delta [calculate_bat_angle];
    intros H; inversion H; reflexivity.
Qed.

(** X1.  [calculate_bat_angle] returns exactly when the box has four
    coordinates; on any other list the unpacking raises, and what it
    raises is a [ValueError]. *)
Theorem calculate_bat_angle_needs_four_coordinates (bat_box : list float) :
  (returned (calculate_bat_angle bat_box) = true <-> length bat_box = 4%nat) /\
  (forall e, calculate_bat_angle bat_box = Raise e ->
             exn_class_of e = ValueError).
Proof.
  split.
  - apply calculate_bat_angle_returned.
  - apply calculate_bat_angle_ValueError.
Qed.

Lemma detections_loop_Return (bs : list (box float)) :
  forall found out,
  detections_loop bs found = Return out ->
  exists added,
    out = (found ++ added)%list /\
    Forall2 made_from (List.filter above_threshold bs) added.
Proof.
  induction bs as [|b rest IH]; intros found out Hrun; cbn [detections_loop] in Hrun.
  - inversion Hrun. subst. exists []. split; [symmetry; apply app_nil_r|].
    constructor.
  - cbn [List.filter]. unfold above_threshold at 1.
    destruct (fgt (conf0 b) f0_30).
    + destruct (calculate_bat_angle (xyxy0 b)) as [a|e] eqn:Hangle;
        [|discriminate Hrun].
      destruct (IH _ _ Hrun) as (added & -> & Hall).
      exists (Detection (xyxy0 b) (conf0 b) a :: added). split.
      * rewrite <- app_assoc. reflexivity.
      * constructor; [|exact Hall]. repeat split. exact Hangle.
    + apply IH, Hrun.
Qed.

Lemma detections_loop_returned (bs : list (box float)) :
  forall found,
  returned (detections_loop bs found) = true <->
  Forall (fun b => length (xyxy0 b) = 4%nat) (List.filter above_threshold bs).
Proof.
  induction bs as [|b rest IH]; intros found; cbn [detections_loop List.filter].
  - split; [constructor | reflexivity].
  - unfold above_threshold at 1. destruct (fgt (conf0 b) f0_30); [|apply IH].
    pose proof (calculate_bat_angle_returned (xyxy0 b)) as Hfour.
    destruct (calculate_bat_angle (xyxy0 b)) as [a|e]; cbn [returned] in Hfour.
    + rewrite IH. split.
      * intros Hrest. constructor; [apply Hfour; reflexivity | exact Hrest].
      * intros Hall. inversion Hall. assumption.
    + split; [intros H; discriminate H|].
      intros Hall. inversion Hall as [|? ? Hb _]. apply Hfour in Hb.
      discriminate Hb.
Qed.

Lemma detections_loop_ValueError (bs : list (box float)) :
  forall found e,
  detections_loop bs found = Raise e -> exn_class_of e = ValueError.
Proof.
  induction bs as [|b rest IH]; intros found e Hrun; cbn [detections_loop] in Hrun.
  - discriminate Hrun.
  - destruct (fgt (conf0 b) f0_30); [|eapply IH, Hrun].
    destruct (calculate_bat_angle (xyxy0 b)) as [a|e'] eqn:Hangle.
    + eapply IH, Hrun.
    + inversion Hrun. subst. eapply calculate_bat_angle_ValueError, Hangle.
Qed.

Lemma process_frame_results_made (results : bat_results float) fd :
  process_frame_results results = Return fd ->
  fd_timestamp fd = timestamp results /\
  bat_angle fd = None /\
  Forall2 made_from (List.filter above_threshold (boxes results))
    (bat_detections fd).
Proof.
  unfold process_frame_results. intros Hrun.
  destruct (detections_loop (boxes results) []) as [found|e] eqn:Hloop;
    [|discriminate Hrun].
  inversion Hrun. subst. cbn.
  apply detections_loop_Return in Hloop as (added & -> & Hall). auto.
Qed.

(** X2.  When [process_frame_results] returns, the frame dict carries
    the timestamp of the prediction, no ['bat_angle'], and one
    detection for each box whose confidence exceeds 0.30, in the order
    of the boxes: its position and confidence are the box's, its angle
    is [calculate_bat_angle] of that position.  Boxes at or below the
    threshold leave no detection. *)
Theorem process_frame_results_keeps_confident_boxes
    (results : bat_results float) fd :
  process_frame_results results = Return fd ->
  fd_timestamp fd = timestamp results /\
  bat_angle fd = None /\
  Forall2 made_from (List.filter above_threshold (boxes results))
    (bat_detections fd) /\
  Forall (fun d => fgt (confidence d) f0_30 = true) (bat_detections fd).
Proof.
  intros Hrun.
  destruct (process_frame_results_made results fd Hrun) as (Ht & Ha & Hall).
  repeat split; try assumption.
  assert (Habove : Forall (fun b => above_threshold b = true)
                     (List.filter above_threshold (boxes results))).
  { apply List.Forall_forall. intros b Hb. apply List.filter_In in Hb. tauto. }
  revert Habove. induction Hall as [|b d bs ds (_ & Hc & _) _ IH];
    intros Habove; constructor; inversion Habove; subst.
  - rewrite Hc. assumption.
  - apply IH. assumption.
Qed.

(** X3.  [process_frame_results] returns exactly when every box above
    the threshold has four coordinates; a box at or below it is never
    unpacked, whatever its coordinates.  When it does not return, what
    it raises is the [ValueError] of the unpacking. *)
Theorem process_frame_results_fails_on_malformed_box
    (results : bat_results float) :
  (returned (process_frame_results results) = true <->
   Forall (fun b => length (xyxy0 b) = 4%nat)
     (List.filter above_threshold (boxes results))) /\
  (forall e, process_frame_results results = Raise e ->
             exn_class_of e = ValueError).
Proof.
  unfold process_frame_results. split.
  - rewrite <- (detections_loop_returned (boxes results) []).
    destruct (detections_loop (boxes results) []); reflexivity.
  - intros e Hrun.
    destruct (detections_loop (boxes results) []) as [found|e'] eqn:Hloop;
      [discriminate Hrun|].
    inversion Hrun. subst. eapply detections_loop_ValueError, Hloop.
Qed.

End Detections.

Section Selection.
Context {E : Externals}.
Hypothesis fgt_irrefl : forall x, fgt x x = false.
Hypothesis fgt_trans :
  forall x y z, fgt x y = true -> fgt y z = true -> fgt x z = true.

(** Where [max] finds its result: nothing after it exceeds it, and it
    strictly exceeds the item the search started from unless it is
    that item. *)
Lemma max_confidence_split (items : list (detection float)) :
  forall best,
  exists pre post,
    best :: items = (pre ++ max_confidence best items :: post)%list /\
    (pre = [] \/
     fgt (confidence (max_confidence best items)) (confidence best) = true) /\
    (forall d, In d pre ->
       confidence d <> confidence (max_confidence best items)) /\
    (forall d, In d post ->
       fgt (confidence d) (confidence (max_confidence best items)) = false).
Proof.
  induction items as [|y rest IH]; intros best; cbn [max_confidence].
  - exists [], []. repeat split; auto; intros d [].
  - destruct (fgt (confidence y) (confidence best)) eqn:Hy.
    + destruct (IH y) as (pre & post & Hlist & Hfirst & Hpre & Hpost).
      assert (Hbeats :
        fgt (confidence (max_confidence y rest)) (confidence best) = true).
      { destruct Hfirst as [-> | Hm].
        - cbn [app] in Hlist. injection Hlist as Hhead Htail.
          rewrite <- Hhead. exact Hy.
        - eapply fgt_trans; eassumption. }
      exists (best :: pre), post. split; [cbn [app]; rewrite <- Hlist; reflexivity|].
      split; [right; exact Hbeats|]. split; [|exact Hpost].
      intros d [<- | Hd]; [|apply Hpre, Hd].
      intros Heq. rewrite Heq, fgt_irrefl in Hbeats. discriminate Hbeats.
    + destruct (IH best) as (pre & post & Hlist & Hfirst & Hpre & Hpost).
      destruct pre as [|p pre'].
      * cbn [app] in Hlist. injection Hlist as Hhead Htail.
        exists [], (y :: rest). rewrite <- Hhead. cbn [app].
        split; [reflexivity|]. split; [left; reflexivity|].
        split; [intros d []|].
        intros d [<- | Hd]; [exact Hy|].
        rewrite Hhead. apply Hpost. rewrite <- Htail. exact Hd.
      * destruct Hfirst as [Hnil | Hm]; [discriminate Hnil|].
        cbn [app] in Hlist. injection Hlist as Hhead Htail.
        exists (best :: y :: pre'), post. cbn [app].
        split; [rewrite <- Htail; reflexivity|].
        split; [right; exact Hm|]. split; [|exact Hpost].
        intros d [<- | [<- | Hd]].
        -- apply Hpre. left. symmetry. exact Hhead.
        -- intros Heq. rewrite Heq, Hm in Hy. discriminate Hy.
        -- apply Hpre. right. exact Hd.
Qed.

(** X4.  Among detections of equal confidence [max] takes the earliest:
    the detection chosen for a frame splits the frame's detections
    into those before it, none of which has its confidence or exceeds
    it, and those after it, none of which exceeds it. *)
Theorem max_confidence_takes_first_of_ties
    (first : detection float) (others : list (detection float)) :
  exists pre post,
    first :: others = (pre ++ max_confidence first others :: post)%list /\
    (forall d, In d pre ->
       confidence d <> confidence (max_confidence first others) /\
       fgt (confidence d) (confidence (max_confidence first others)) = false) /\
    (forall d, In d post ->
       fgt (confidence d) (confidence (max_confidence first others)) = false).
Proof.
  destruct (max_confidence_split others first)
    as (pre & post & Hlist & _ & Hpre & Hpost).
  exists pre, post. split; [exact Hlist|]. split; [|exact Hpost].
  intros d Hd. split; [apply Hpre, Hd|].
  apply (max_confidence_highest fgt_irrefl fgt_trans).
  rewrite Hlist. apply in_or_app. left. exact Hd.
Qed.

End Selection.

Section Composition.
Context {E : Externals}.

Lemma Forall2_In_r {A B} (R : A -> B -> Prop) l k y :
  Forall2 R l k -> In y k -> exists x, In x l /\ R x y.
Proof.
  induction 1 as [|x y' l k Hxy _ IH]; intros Hin.
  - destruct Hin.
  - destruct Hin as [<- | Hin].
    + exists x. split; [left; reflexivity | exact Hxy].
    + destruct (IH Hin) as (x' & Hx' & HR). exists x'. split; [right|]; assumption.
Qed.

(** X5.  What [extract_clean_trajectories] makes of a frame that
    [process_frame_results] produced: [None] exactly when no box of
    the prediction exceeds the threshold; otherwise a point whose
    position is that of a box above the threshold and whose angle is
    [calculate_bat_angle] of that very position. *)
Theorem trajectory_entry_of_processed_frame (results : bat_results float) fd :
  process_frame_results results = Return fd ->
  match trajectory_entry fd with
  | None => List.filter above_threshold (boxes results) = []
  | Some point =>
      exists b,
        In b (boxes results) /\ above_threshold b = true /\
        tp_position point = xyxy0 b /\
        calculate_bat_angle (tp_position point) = Return (tp_angle point)
  end.
Proof.
  intros Hrun.
  destruct (process_frame_results_made results fd Hrun) as (_ & _ & Hall).
  unfold trajectory_entry.
  destruct (bat_detections fd) as [|first others] eqn:Hdets.
  - inversion Hall. reflexivity.
  - destruct (Forall2_In_r _ _ _ _ Hall (max_confidence_In others first))
      as (b & Hb & Hpos & _ & Hangle).
    apply List.filter_In in Hb as [Hin Habove].
    exists b. cbn [tp_position tp_angle]. rewrite Hpos. auto.
Qed.

End Composition.

Section Loading.
Context {E : Externals}.

(** One call of [self.load_tools.load_model]: nothing is assigned or
    printed, and at most the call itself is logged. *)
Lemma load_model_call_effect model_name s :
  self (snd (load_model_call model_name s)) = self s /\
  stdout (snd (load_model_call model_name s)) = stdout s /\
  (calls (snd (load_model_call model_name s)) = calls s \/
   exists o r,
     calls (snd (load_model_call model_name s))
       = (calls s ++ [ELoadModel o model_name r])%list).
Proof.
  unfold load_model_call, bind, getattr.
  destruct (load_tools (self s)) as [[|o|path]|]; cbn; auto.
  unfold extern. destruct (lib_load_model o model_name (world s)) as [[v|e] w];
    cbn; repeat split; right; eauto.
Qed.

Lemma first_failure_effect n s1 :
  self (snd (first_failure n s1)) = self s1 /\
  calls (snd (first_failure n s1)) = calls s1 /\
  (stdout (snd (first_failure n s1)) = stdout s1 \/
   stdout (snd (first_failure n s1))
     = (stdout s1 ++ ["Attempt 1 failed, retrying..."])%list).
Proof. unfold first_failure. destruct (n =? 1); cbn; auto. Qed.

Lemma load_model_with_retry_effect model_name max_attempts s :
  self (snd (load_model_with_retry model_name max_attempts s)) = self s /\
  (exists new : list event,
     calls (snd (load_model_with_retry model_name max_attempts s))
       = (calls s ++ new)%list /\
     (new = [] \/ exists o r, new = [ELoadModel o model_name r])) /\
  (stdout (snd (load_model_with_retry model_name max_attempts s)) = stdout s \/
   stdout (snd (load_model_with_retry model_name max_attempts s))
     = (stdout s ++ ["Attempt 1 failed, retrying..."])%list).
Proof.
  rewrite load_model_with_retry_unfold.
  destruct (max_attempts <=? 0).
  { cbn. repeat split; auto. exists []. rewrite app_nil_r. auto. }
  destruct (load_model_call_effect model_name s) as (Hself & Hout & Hcalls).
  assert (Hnew : exists new : list event,
            calls (snd (load_model_call model_name s)) = (calls s ++ new)%list /\
            (new = [] \/ exists o r, new = [ELoadModel o model_name r])).
  { destruct Hcalls as [Hc | (o & r & Hc)].
    - exists []. rewrite app_nil_r. auto.
    - exists [ELoadModel o model_name r]. split; [exact Hc | right; eauto]. }
  destruct (load_model_call model_name s) as [[path|e] s1]; cbn [snd] in *.
  - destruct (first_failure_effect max_attempts s1) as (Hs & Hc & Ho).
    rewrite Hs, Hc, Hself. split; [reflexivity|]. split; [exact Hnew|].
    rewrite <- Hout. exact Ho.
  - destruct (is_Exception (exn_class_of e)); cbn [snd]; [|auto].
    destruct (first_failure_effect max_attempts s1) as (Hs & Hc & Ho).
    rewrite Hs, Hc, Hself. split; [reflexivity|]. split; [exact Hnew|].
    rewrite <- Hout. exact Ho.
Qed.

(** X13.  [load_model_with_retry] never makes a second attempt: however
    many attempts are allowed, it calls [load_model] at most once,
    prints at most the line of the first failed attempt, and assigns
    nothing to the pipeline object. *)
Theorem load_model_with_retry_never_retries model_name max_attempts s :
  self (snd (load_model_with_retry model_name max_attempts s)) = self s /\
  (exists new : list event,
     calls (snd (load_model_with_retry model_name max_attempts s))
       = (calls s ++ new)%list /\
     (new = [] \/ exists o r, new = [ELoadModel o model_name r])) /\
  (stdout (snd (load_model_with_retry model_name max_attempts s)) = stdout s \/
   stdout (snd (load_model_with_retry model_name max_attempts s))
     = (stdout s ++ ["Attempt 1 failed, retrying..."])%list).
Proof. apply load_model_with_retry_effect. Qed.

(** What the constructor leaves behind, on every path through it. *)
Lemma BatTrackingPipeline_effect s r s' :
  BatTrackingPipeline s = (r, s') ->
  bat_model (self s') = None /\
  context_model (self s') = None /\
  logger (self s') = None /\
  exists new : list event,
    calls s' = (calls s ++ new)%list /\
    (length new <= 3)%nat /\
    Forall (fun e => is_setup e = true) new /\
    (forall r, ~ In (ENew Florence2 r) new).
Proof.
  unfold BatTrackingPipeline, __init__. intros Hrun.
  unfold bind at 1, extern at 1 in Hrun. cbn [world self stdout calls] in Hrun.
  destruct (lib_new LoadTools (world s)) as [[lt|e] w1].
  2:{ inversion Hrun. subst. cbn. repeat split.
      exists [ENew LoadTools (Raise e)].
      split; [reflexivity|]. split; [cbn; lia|].
      split; [repeat constructor|].
      intros r [H|[]]. discriminate H. }
  unfold bind at 1, setattr at 1 in Hrun.
  cbn [world self stdout calls] in Hrun.
  unfold bind at 1, extern at 1 in Hrun. cbn [world self stdout calls] in Hrun.
  destruct (lib_new DataTools w1) as [[dt|e] w2].
  2:{ inversion Hrun. subst. cbn. repeat split.
      exists [ENew LoadTools (Return lt); ENew DataTools (Raise e)].
      split; [rewrite <- app_assoc; reflexivity|]. split; [cbn; lia|].
      split; [repeat constructor|].
      intros r [H|[H|[]]]; discriminate H. }
  unfold bind at 1, setattr at 1 in Hrun.
  cbn [world self stdout calls] in Hrun.
  unfold bind at 1 in Hrun.
  match type of Hrun with
  | context [load_model_with_retry ?n ?k ?st] =>
      pose proof (load_model_with_retry_raises n k st ltac:(lia)) as Hr;
      destruct (load_model_with_retry_effect n k st)
        as (Hself & (new & Hcalls & Hnew) & _);
      destruct (load_model_with_retry n k st) as [[m|e] s3]
  end; [discriminate Hr|].
  inversion Hrun. subst. cbn [snd self calls] in *. rewrite Hself. cbn.
  repeat split.
  exists (ENew LoadTools (Return lt) :: ENew DataTools (Return dt) :: new).
  split; [rewrite Hcalls, <- !app_assoc; reflexivity|].
  destruct Hnew as [-> | (o & r & ->)].
  - split; [cbn; lia|]. split; [repeat constructor|].
    intros r [H|[H|[]]]; discriminate H.
  - split; [cbn; lia|]. split; [repeat constructor|].
    intros r' [H|[H|[H|[]]]]; discriminate H.
Qed.

(** X6.  The constructor never completes.  Whatever the libraries do,
    [BatTrackingPipeline()] raises; the object it was building has no
    [bat_model], no [context_model] and no [logger]; it has made at
    most three library calls, instantiations and a model load only,
    and [Florence2] was never instantiated. *)
Theorem BatTrackingPipeline_never_completes s :
  returned (fst (BatTrackingPipeline s)) = false /\
  bat_model (self (snd (BatTrackingPipeline s))) = None /\
  context_model (self (snd (BatTrackingPipeline s))) = None /\
  logger (self (snd (BatTrackingPipeline s))) = None /\
  exists new : list event,
    calls (snd (BatTrackingPipeline s)) = (calls s ++ new)%list /\
    (length new <= 3)%nat /\
    Forall (fun e => is_setup e = true) new /\
    (forall r, ~ In (ENew Florence2 r) new).
Proof.
  split; [apply BatTrackingPipeline_raises|].
  apply (BatTrackingPipeline_effect s (fst (BatTrackingPipeline s))).
  destruct (BatTrackingPipeline s); reflexivity.
Qed.

(** X7.  [analyze_baseball_swing] ends where the constructor ends: it
    raises what the constructor raised and leaves the state the
    constructor left, so it never returns, never opens the video, and
    does the same for any two video paths. *)
Theorem analyze_baseball_swing_ignores_video video_path other_path s :
  (exists e,
     BatTrackingPipeline s = (Raise e, snd (BatTrackingPipeline s)) /\
     analyze_baseball_swing video_path s
       = (Raise e, snd (BatTrackingPipeline s))) /\
  analyze_baseball_swing video_path s = analyze_baseball_swing other_path s.
Proof.
  unfold analyze_baseball_swing, bind.
  pose proof (BatTrackingPipeline_raises s) as Hr.
  destruct (BatTrackingPipeline s) as [[u|e] s1]; [discriminate Hr|].
  split; [exists e; split; reflexivity | reflexivity].
Qed.

End Loading.

Section Sequence.
Context {E : Externals}.

(** X8.  On a pipeline object without a [logger] attribute,
    [process_sequence] raises the [AttributeError] of its first
    statement: no library is called, nothing is printed, nothing
    changes. *)
Theorem process_sequence_needs_logger video_path s :
  logger (self s) = None ->
  process_sequence video_path s
    = (Raise (Exn AttributeError
                "'BatTrackingPipeline' object has no attribute 'logger'"), s).
Proof.
  intros Hlogger.
  unfold process_sequence, bind at 1, logger_info, bind at 1, getattr.
  rewrite Hlogger. reflexivity.
Qed.

(** X9.  In every call of [process_sequence], however it ends, the bat
    model is asked about the frames the extraction returned and about
    nothing else, one call per frame from the first on, in the order
    of the extraction. *)
Theorem process_sequence_asks_frames_in_order video_path s :
  exists new : list event,
    calls (snd (process_sequence video_path s)) = (calls s ++ new)%list /\
    (List.filter is_predict new = [] \/
     exists o frames (answers : list (outcome (bat_results float))),
       In (EGenerate o video_path (Return frames)) new /\
       List.filter is_predict new
         = zip_with (fun f r => EPredict (bat_model_of s) f r) frames answers).
Proof. exact (process_sequence_predicts_in_order video_path s). Qed.

Lemma first_frame_context_Return f game_context s gc s' :
  first_frame_context 0 f game_context s = (Return gc, s') ->
  exists lg c answer,
    context_model (self s) = Some (VObj c) /\
    gc = Some answer /\
    calls s'
      = (calls s ++ [EInfo lg "Analyzing game context" (Return tt);
                     EInference c f "<BATTING_CONTEXT>" (Return answer)])%list.
Proof.
  unfold first_frame_context. cbn [Z.eqb]. intros Hrun.
  apply bind_Return in Hrun as ([] & s1 & Hlog & Hrun).
  unfold logger_info in Hlog.
  apply bind_Return in Hlog as (v & s0 & Hget & Hlog).
  apply getattr_Return in Hget as [_ ->].
  apply bind_Return in Hlog as (lg & s0 & Hrec & Hlog).
  apply receiver_Return in Hrec as [_ ->].
  apply extern_Return in Hlog as (w & _ & ->).
  apply bind_Return in Hrun as (cm & s2 & Hget & Hrun).
  apply getattr_Return in Hget as [Hcm ->].
  apply bind_Return in Hrun as (c & s2 & Hrec & Hrun).
  apply receiver_Return in Hrec as [-> ->].
  apply bind_Return in Hrun as (answer & s2 & Hask & Hrun).
  apply extern_Return in Hask as (w2 & _ & ->).
  inversion Hrun. subst. exists lg, c, answer. cbn [self calls] in *.
  split; [exact Hcm|]. split; [reflexivity|].
  rewrite <- app_assoc. reflexivity.
Qed.

(** After the first frame the loop hands [game_context] on as it is. *)
Lemma frame_loop_later_context frames :
  forall idx sequence_data game_context s data s',
  0 < idx ->
  frame_loop (enumerate_from idx frames) sequence_data game_context s
    = (Return data, s') ->
  snd data = game_context.
Proof.
  induction frames as [|f rest IH];
    intros idx sequence_data game_context s data s' Hidx Hrun.
  - cbn in Hrun. inversion Hrun. reflexivity.
  - cbn [enumerate_from frame_loop] in Hrun.
    apply bind_Return in Hrun as (v & s1 & _ & Hrun).
    apply bind_Return in Hrun as (o & s2 & _ & Hrun).
    apply bind_Return in Hrun as (r & s3 & _ & Hrun).
    apply bind_Return in Hrun as (gc & s4 & Hctx & Hrun).
    apply bind_Return in Hrun as (fd & s5 & _ & Hrun).
    unfold first_frame_context in Hctx.
    destruct (Z.eqb_spec idx 0); [lia|]. inversion Hctx. subst.
    eapply IH; [|exact Hrun]. lia.
Qed.

(** X10.  When the frame loop of [process_sequence] runs to its end,
    the game context it hands to [analyze_sequence] is [None] for a
    video without frames, and otherwise the answer the context model
    gave about the first frame, the only question put to it. *)
Theorem frame_loop_context_from_first_frame
    (frames : list frame) s sequence_data game_context s' :
  frame_loop (enumerate frames) [] None s
    = (Return (sequence_data, game_context), s') ->
  match frames with
  | [] => game_context = None
  | f :: _ =>
      exists c answer (new : list event),
        context_model (self s) = Some (VObj c) /\
        calls s' = (calls s ++ new)%list /\
        List.filter is_inference new
          = [EInference c f "<BATTING_CONTEXT>" (Return answer)] /\
        game_context = Some answer
  end.
Proof.
  intros Hrun. destruct frames as [|f rest].
  - cbn in Hrun. inversion Hrun. reflexivity.
  - unfold enumerate in Hrun. cbn [enumerate_from frame_loop] in Hrun.
    apply bind_Return in Hrun as (v & s1 & Hget & Hrun).
    apply getattr_Return in Hget as [_ ->].
    apply bind_Return in Hrun as (o & s1 & Hrec & Hrun).
    apply receiver_Return in Hrec as [_ ->].
    apply bind_Return in Hrun as (r & s1 & Hpred & Hrun).
    apply extern_Return in Hpred as (w & _ & ->).
    apply bind_Return in Hrun as (gc & s2 & Hctx & Hrun).
    apply bind_Return in Hrun as (fd & s3 & Hfd & Hrun).
    apply lift_Return in Hfd as [_ ->].
    apply first_frame_context_Return in Hctx
      as (lg & c & answer & Hcm & -> & Hcalls2).
    cbn [self calls] in Hcm, Hcalls2.
    assert (Hgc : game_context = Some answer).
    { change game_context with (snd (sequence_data, game_context)).
      eapply frame_loop_later_context; [|exact Hrun]. lia. }
    pose proof (keeps_frame_loop_later silent silent_predict rest (0 + 1)
                  ([] ++ [fd])%list (Some answer) ltac:(lia) s2)
      as (later & Hlater & Hnone).
    rewrite Hrun in Hlater. cbn [snd] in Hlater.
    exists c, answer,
      ([EPredict o f (Return r);
        EInfo lg "Analyzing game context" (Return tt);
        EInference c f "<BATTING_CONTEXT>" (Return answer)] ++ later)%list.
    split; [exact Hcm|]. split.
    + rewrite Hlater, Hcalls2, <- !app_assoc. reflexivity.
    + split; [|exact Hgc].
      rewrite List.filter_app, Hnone. reflexivity.
Qed.

#[global] Instance unseen_preorder : PreOrder unseen.
Proof.
  split.
  - intros s. split; reflexivity.
  - intros s1 s2 s3 [Ho1 Hc1] [Ho2 Hc2]. split.
    + congruence.
    + etransitivity; eassumption.
Qed.

Lemma unseen_extern {A} ev f :
  (forall r, is_setup (ev r) = false) -> keeps unseen (extern (A:=A) ev f).
Proof.
  intros Hev s. split.
  - unfold extern. destruct (f (world s)). reflexivity.
  - apply none_of_extern, Hev.
Qed.

Lemma unseen_process_sequence video_path :
  keeps unseen (process_sequence video_path).
Proof.
  apply keeps_process_sequence; try exact _; intros;
    apply unseen_extern; reflexivity.
Qed.

(** X11.  [process_sequence] works behind the scenes: however it ends,
    it has printed nothing to standard output, instantiated no
    library class and loaded no model. *)
Theorem process_sequence_prints_nothing video_path s :
  stdout (snd (process_sequence video_path s)) = stdout s /\
  exists new : list event,
    calls (snd (process_sequence video_path s)) = (calls s ++ new)%list /\
    List.filter is_setup new = [].
Proof. exact (unseen_process_sequence video_path s). Qed.

(** X12.  The [try] statement of [analyze_baseball_swing] never prints
    the line of success.  [process_sequence] raises; if what it raises
    is an [Exception], the statement has added one line to standard
    output, ["Analysis failed: "] and the text of the exception, and
    otherwise it has added none. *)
Theorem analyze_try_prints_failure_only video_path s :
  exists e,
    fst (process_sequence video_path s) = Raise e /\
    stdout (snd (analyze_try video_path s))
      = if is_Exception (exn_class_of e)
        then (stdout s ++ [("Analysis failed: " ++ str e)%string])%list
        else stdout s.
Proof.
  rewrite analyze_try_unfold.
  pose proof (process_sequence_raises video_path s) as Hr.
  destruct (unseen_process_sequence video_path s) as [Hout _].
  destruct (process_sequence video_path s) as [[results|e] s1];
    [discriminate Hr|].
  cbn [snd fst] in *. exists e. split; [reflexivity|].
  destruct (is_Exception (exn_class_of e)); cbn [snd stdout];
    rewrite Hout; reflexivity.
Qed.

Lemma no_generate_extern {A} ev f :
  (forall r, is_generate (ev r) = false) ->
  keeps (none_of is_generate) (extern (A:=A) ev f).
Proof. apply none_of_extern. Qed.

Lemma no_generate_then_extracted_once video_path s1 s2 s3 :
  none_of is_generate s1 s2 -> extracted_once video_path s2 s3 ->
  extracted_once video_path s1 s3.
Proof.
  intros (n1 & H1 & F1) (n2 & H2 & F2). exists (n1 ++ n2)%list. split.
  - rewrite H2, H1. symmetry. apply app_assoc.
  - rewrite List.filter_app, F1. exact F2.
Qed.

Lemma extracted_once_then_no_generate video_path s1 s2 s3 :
  extracted_once video_path s1 s2 -> none_of is_generate s2 s3 ->
  extracted_once video_path s1 s3.
Proof.
  intros (n1 & H1 & F1) (n2 & H2 & F2). exists (n1 ++ n2)%list. split.
  - rewrite H2, H1. symmetry. apply app_assoc.
  - rewrite List.filter_app, F2, app_nil_r. exact F1.
Qed.

Lemma no_generate_extracted_once video_path s s' :
  none_of is_generate s s' -> extracted_once video_path s s'.
Proof. intros (new & Hc & Hf). exists new. auto. Qed.

Lemma extracted_once_process_sequence video_path :
  keeps (extracted_once video_path) (process_sequence video_path).
Proof.
  assert (Hinfo : forall o msg,
            keeps (none_of is_generate) (extern (EInfo o msg) (lib_info o msg)))
    by (intros; apply no_generate_extern; reflexivity).
  assert (Hnow : keeps (none_of is_generate) (extern ENow lib_now_isoformat))
    by (apply no_generate_extern; reflexivity).
  assert (Hpredict : forall o f,
            keeps (none_of is_generate)
              (extern (EPredict o f) (lib_predict o f f0_30 false)))
    by (intros; apply no_generate_extern; reflexivity).
  assert (Hinference : forall o f task,
            keeps (none_of is_generate)
              (extern (EInference o f task) (lib_inference o f task)))
    by (intros; apply no_generate_extern; reflexivity).
  unfold process_sequence.
  eapply keeps_bind_het;
    [apply no_generate_extracted_once | apply no_generate_then_extracted_once
    | apply (keeps_logger_info _ Hinfo) | intros _].
  eapply keeps_bind_het;
    [apply no_generate_extracted_once | apply no_generate_then_extracted_once
    | apply keeps_getattr; exact _ | intros dt].
  eapply keeps_bind_het;
    [apply no_generate_extracted_once | apply no_generate_then_extracted_once
    | apply keeps_receiver; exact _ | intros o].
  eapply keeps_bind_het with (R1 := extracted_once video_path)
                             (R2 := none_of is_generate).
  - auto.
  - apply extracted_once_then_no_generate.
  - intros s. unfold extern.
    destruct (lib_generate_photo_dataset o video_path 60
                "swing_analysis_frames" (world s)) as [r w].
    exists [EGenerate o video_path r]. split; [reflexivity|]. right. eauto.
  - intros frames.
    apply keeps_bind; [exact _ | apply (keeps_logger_info _ Hinfo) | intros _].
    apply keeps_bind;
      [exact _ | apply (keeps_frame_loop _ Hinfo Hpredict Hinference)
      | intros data].
    apply (keeps_analyze_sequence _ Hnow).
Qed.

(** X14.  In every call of [process_sequence], however it ends, frames
    are asked for at most once, and then those of the video path the
    call was given. *)
Theorem process_sequence_extracts_once video_path s :
  exists new : list event,
    calls (snd (process_sequence video_path s)) = (calls s ++ new)%list /\
    (List.filter is_generate new = [] \/
     exists o r, List.filter is_generate new = [EGenerate o video_path r]).
Proof. exact (extracted_once_process_sequence video_path s). Qed.

End Sequence.

(** * The statements at work in the small world *)

Import Toy.

Lemma gtb_irrefl x : (x >? x) = false.
Proof. rewrite Z.gtb_ltb. apply Z.ltb_irrefl. Qed.

Lemma gtb_trans x y z : (x >? y) = true -> (y >? z) = true -> (x >? z) = true.
Proof. rewrite !Z.gtb_ltb, !Z.ltb_lt. lia. Qed.

Example frame_loop_on_three_frames :
  frame_loop (E:=toy) (enumerate [0; 1; 2]%nat) [] None (start equipped fine)
    = (Return (seen, Some answer), after_loop).
Proof. vm_compute. reflexivity. Qed.

Example trajectories_of_three_frames :
  trajectories_loop (E:=toy) seen []
    = [Some (TrajectoryPoint [12; 22; 112; 142] 20); None;
       Some (TrajectoryPoint [30; 40; 130; 90] (-50))].
Proof. reflexivity. Qed.

Lemma process_sequence_frame_order_witness :
  exists (bm : N) (new : list event),
    calls after_loop = (calls (start equipped fine) ++ new)%list /\
    length (List.filter is_predict new) = length [0; 1; 2]%nat /\
    length seen = length [0; 1; 2]%nat /\
    forall (i : nat) (f : nat),
      [0; 1; 2]%nat !! i = Some f ->
      exists r fd,
        List.filter is_predict new !! i = Some (EPredict bm f (Return r)) /\
        process_frame_results r = Return fd /\
        seen !! i = Some fd.
Proof.
  apply (process_sequence_frame_order (E:=toy) [0; 1; 2]%nat
           (start equipped fine) seen (Some answer) after_loop).
  vm_compute. reflexivity.
Defined.

Lemma extract_clean_trajectories_best_detection_witness :
  (bat_detections frame0_data = [] ->
   trajectories_loop (E:=toy) seen [] !! 0%nat = Some None) /\
  (bat_detections frame0_data <> [] ->
   exists best,
     In best (bat_detections frame0_data) /\
     (forall d, In d (bat_detections frame0_data) ->
        (confidence d >? confidence best) = false) /\
     trajectories_loop (E:=toy) seen [] !! 0%nat
       = Some (Some {| tp_position := position best;
                       tp_angle := angle best |})).
Proof.
  apply (extract_clean_trajectories_best_detection (E:=toy)
           gtb_irrefl gtb_trans seen 0 frame0_data).
  reflexivity.
Defined.

Lemma analyze_try_reports_failure_witness :
  analyze_try (E:=toy) "empty.mp4" (start equipped fine)
    = (Return None,
       State (self after_empty_video) (world after_empty_video)
         (stdout after_empty_video
            ++ ["Analysis failed: "
                  ++ str (no_attribute "BatTrackingPipeline"
                            "interpolate_missing_trajectories")])
         (calls after_empty_video)).
Proof.
  apply (analyze_try_reports_failure (E:=toy) "empty.mp4"
           (start equipped fine)
           (no_attribute "BatTrackingPipeline"
              "interpolate_missing_trajectories")
           after_empty_video).
  - vm_compute. reflexivity.
  - reflexivity.
Defined.

(** C4, as it was put: [every] exception leaving [process_sequence] is
    caught.  Here the frame extraction is interrupted: the
    [KeyboardInterrupt] leaves [process_sequence], passes the
    [except Exception] clause, nothing is printed and [None] is not
    returned. *)
Lemma analyze_try_lets_interrupt_through :
  let s1 := State equipped (ToyWorld true true 1) []
              [EInfo 5 "Extracting frames from video sequence" (Return tt);
               EGenerate 2 "swing_sequence.mp4"
                 (Raise (Exn KeyboardInterrupt ""))] in
  process_sequence (E:=toy) "swing_sequence.mp4" (start equipped ctrl_c)
    = (Raise (Exn KeyboardInterrupt ""), s1) /\
  analyze_try (E:=toy) "swing_sequence.mp4" (start equipped ctrl_c)
    = (Raise (Exn KeyboardInterrupt ""), s1).
Proof. split; vm_compute; reflexivity. Qed.

(** C3, as it was put: [analyze_baseball_swing] returns [None] for
    every video path.  Here every library call succeeds, and still the
    call ends in the constructor, before the [try]: the [NameError]
    on [time] comes out of [analyze_baseball_swing]. *)
Lemma analyze_baseball_swing_does_not_return_None :
  analyze_baseball_swing (E:=toy) "swing_sequence.mp4" (start new_object fine)
    = (Raise (Exn NameError "name 'time' is not defined"),
       State (Pipeline (Some (VObj 1)) (Some (VObj 2)) None None None)
         (ToyWorld true false 3)
         ["Attempt 1 failed, retrying..."]
         [ENew LoadTools (Return (VObj 1)); ENew DataTools (Return (VObj 2));
          ELoadModel 1 "bat_tracking" (Return (VStr "models/bat_tracking.pt"))])
  /\ fst (analyze_baseball_swing (E:=toy) "swing_sequence.mp4"
            (start new_object fine)) <> Return None.
Proof. split; [vm_compute; reflexivity | vm_compute; discriminate]. Qed.

(** C9, as it was put: when [load_model] succeeds the call raises the
    [NameError] on [YOLO].  Here [load_model] succeeds, and what comes
    out of the call with three attempts allowed is the [NameError] on
    [time]. *)
Lemma load_model_with_retry_raises_on_time :
  fst (load_model_call (E:=toy) "bat_tracking" (start equipped fine))
    = Return (VStr "models/bat_tracking.pt") /\
  fst (load_model_with_retry (E:=toy) "bat_tracking" 3 (start equipped fine))
    = Raise (Exn NameError "name 'time' is not defined") /\
  fst (load_model_with_retry (E:=toy) "bat_tracking" 3 (start equipped fine))
    <> Raise (Exn NameError "name 'YOLO' is not defined").
Proof.
  split; [vm_compute; reflexivity|].
  split; [vm_compute; reflexivity | vm_compute; discriminate].
Qed.

(** C1.  With the default of three attempts and a model that cannot be
    loaded, the call makes one attempt, prints, and ends with the
    [NameError] on [time]: no delay, no second attempt, and not the
    generic failure after three attempts. *)
Theorem load_model_with_retry_stops_after_first_attempt :
  load_model_with_retry (E:=toy) "bat_tracking" 3 (start equipped no_model)
    = (Raise (Exn NameError "name 'time' is not defined"),
       State equipped (ToyWorld false false 1)
         ["Attempt 1 failed, retrying..."]
         [ELoadModel 1 "bat_tracking"
            (Raise (Exn (LibraryError "FileNotFoundError") "no such model"))]).
Proof. vm_compute. reflexivity. Qed.

(** C5.  [analyze_sequence] returns no dict, whatever it is given: on
    the data of three frames and a game context, as on any other
    input, it ends with the [AttributeError] of
    [extract_clean_trajectories], before the metrics and the timestamp
    are computed. *)
Theorem analyze_sequence_returns_no_dict :
  (forall (E : Externals) sequence_data game_context s,
     returned (fst (analyze_sequence sequence_data game_context s)) = false) /\
  analyze_sequence (E:=toy) seen (Some answer) after_loop
    = (Raise (Exn AttributeError
                "'BatTrackingPipeline' object has no attribute 'interpolate_missing_trajectories'"),
       after_loop).
Proof.
  split.
  - intros E sequence_data game_context s.
    rewrite analyze_sequence_raises. reflexivity.
  - apply (analyze_sequence_raises (E:=toy)).
Qed.

(** C10.  In every call of [process_sequence] the context model is asked
    at most once, and then about the first frame of the video; but on
    a video without frames the call returns no result whose
    ['game_situation'] could be [None]: it ends with the
    [AttributeError] of [extract_clean_trajectories]. *)
Theorem process_sequence_context_once :
  (forall (E : Externals) video_path s,
     once_on_first_frame video_path s (snd (process_sequence video_path s))) /\
  process_sequence (E:=toy) "empty.mp4" (start equipped fine)
    = (Raise (Exn AttributeError
                "'BatTrackingPipeline' object has no attribute 'interpolate_missing_trajectories'"),
       after_empty_video).
Proof.
  split.
  - intros E video_path s. apply process_sequence_inference.
  - vm_compute. reflexivity.
Qed.

(** ** The further properties at work in the small world *)

Example malformed_box_below_threshold_is_ignored :
  process_frame_results (E:=toy)
    (BatResults VNone [Box 25 [0; 0]; Box 64 [30; 40; 130; 90]])
    = Return (FrameData VNone [Detection [30; 40; 130; 90] 64 (-50)] None).
Proof. reflexivity. Qed.

Example malformed_box_above_threshold_raises :
  process_frame_results (E:=toy)
    (BatResults VNone [Box 64 [30; 40; 130; 90]; Box 55 [0; 0]])
    = Raise (Exn ValueError "not enough values to unpack (expected 4, got 2)").
Proof. vm_compute. reflexivity. Qed.

Lemma process_frame_results_keeps_confident_boxes_witness :
  fd_timestamp frame0_data = timestamp (prediction 0) /\
  bat_angle frame0_data = None /\
  Forall2 (made_from (E:=toy))
    (List.filter (above_threshold (E:=toy)) (boxes (prediction 0)))
    (bat_detections frame0_data) /\
  Forall (fun d => (confidence d >? 30) = true) (bat_detections frame0_data).
Proof.
  apply (process_frame_results_keeps_confident_boxes (E:=toy)
           (prediction 0) frame0_data).
  reflexivity.
Defined.

Lemma max_confidence_takes_first_of_ties_witness :
  exists pre post,
    bat_detections frame0_data
      = (pre ++ Detection [12; 22; 112; 142] 91 20 :: post)%list /\
    (forall d, In d pre ->
       confidence d <> 91 /\ (confidence d >? 91) = false) /\
    (forall d, In d post -> (confidence d >? 91) = false).
Proof.
  exact (max_confidence_takes_first_of_ties (E:=toy) gtb_irrefl gtb_trans
           (Detection [10; 20; 110; 120] 55 0)
           [Detection [12; 22; 112; 142] 91 20;
            Detection [14; 24; 114; 104] 91 (-20)]).
Defined.

Lemma trajectory_entry_of_processed_frame_witness :
  exists b,
    In b (boxes (prediction 0)) /\ above_threshold (E:=toy) b = true /\
    [12; 22; 112; 142] = xyxy0 b /\
    calculate_bat_angle (E:=toy) [12; 22; 112; 142] = Return 20.
Proof.
  apply (trajectory_entry_of_processed_frame (E:=toy)
           (prediction 0) frame0_data).
  reflexivity.
Defined.

Lemma process_sequence_needs_logger_witness :
  process_sequence (E:=toy) "swing_sequence.mp4" (start new_object fine)
    = (Raise (Exn AttributeError
                "'BatTrackingPipeline' object has no attribute 'logger'"),
       start new_object fine).
Proof.
  apply (process_sequence_needs_logger (E:=toy) "swing_sequence.mp4"
           (start new_object fine)).
  reflexivity.
Defined.

Lemma frame_loop_context_from_first_frame_witness :
  exists c answer' (new : list event),
    context_model (self (start equipped fine)) = Some (VObj c) /\
    calls after_loop = (calls (start equipped fine) ++ new)%list /\
    List.filter is_inference new
      = [EInference c 0%nat "<BATTING_CONTEXT>" (Return answer')] /\
    Some answer = Some answer'.
Proof.
  apply (frame_loop_context_from_first_frame (E:=toy) [0; 1; 2]%nat
           (start equipped fine) seen (Some answer) after_loop).
  vm_compute. reflexivity.
Defined.
